(** * inscope: the scope-matching engine of [main.go]

    A shallow embedding of the pattern translation, the host-name
    resolution, the scope-file reader and the classifier of [main.go],
    with the properties of each.

    Go strings are byte sequences; they are modelled by [string], whose
    characters are the bytes. *)

From Stdlib Require Import Bool Arith List ZArith Lia.
From Stdlib Require Import Ascii String.
Import ListNotations.

Local Open Scope string_scope.
Local Open Scope bool_scope.
Local Open Scope nat_scope.

(** ** The functions of Go's [strings] package that [main.go] calls *)

Module Strings.

(** [strings.HasPrefix s prefix]. *)
Definition HasPrefix (s pre : string) : bool := String.prefix pre s.

(** Reversal and [strings.HasSuffix]. *)
Fixpoint rev (s : string) : string :=
  match s with
  | EmptyString => EmptyString
  | String c t => rev t ++ String c EmptyString
  end.

Definition HasSuffix (s suf : string) : bool := String.prefix (rev suf) (rev s).

(** [strings.Contains s substr]: some suffix of [s] starts with [substr]. *)
Fixpoint Contains (s substr : string) : bool :=
  HasPrefix s substr ||
  match s with
  | EmptyString => false
  | String _ t => Contains t substr
  end.

(** Membership of a byte in a set of bytes given as a string. *)
Fixpoint mem (c : ascii) (chars : string) : bool :=
  match chars with
  | EmptyString => false
  | String d t => Ascii.eqb c d || mem c t
  end.

(** [strings.ContainsAny s chars]. *)
Fixpoint ContainsAny (s chars : string) : bool :=
  match s with
  | EmptyString => false
  | String c t => mem c chars || ContainsAny t chars
  end.

(** [strings.ToLower] on bytes: the letters [A]..[Z] are mapped to
    [a]..[z], any other byte is kept.  This is what Go computes for a
    string of ASCII bytes. *)
Definition lower (c : ascii) : ascii :=
  let n := nat_of_ascii c in
  if (65 <=? n) && (n <=? 90) then ascii_of_nat (n + 32) else c.

Fixpoint ToLower (s : string) : string :=
  match s with
  | EmptyString => EmptyString
  | String c t => String (lower c) (ToLower t)
  end.

(** The white space of [strings.TrimSpace] among the ASCII bytes:
    tab, line feed, vertical tab, form feed, carriage return, space. *)
Definition isSpace (c : ascii) : bool :=
  let n := nat_of_ascii c in
  ((9 <=? n) && (n <=? 13)) || (n =? 32).

Fixpoint TrimLeft (s : string) : string :=
  match s with
  | EmptyString => EmptyString
  | String c t => if isSpace c then TrimLeft t else s
  end.

(** [TrimRight] keeps a byte when it is not a space or when something
    is kept after it. *)
Fixpoint TrimRight (s : string) : string :=
  match s with
  | EmptyString => EmptyString
  | String c t =>
      match TrimRight t with
      | EmptyString => if isSpace c then EmptyString else String c EmptyString
      | r => String c r
      end
  end.

Definition TrimSpace (s : string) : string := TrimRight (TrimLeft s).

(** The slices [s[:n]] and [s[n:]]. *)
Fixpoint take (n : nat) (s : string) : string :=
  match n, s with
  | S m, String c t => String c (take m t)
  | _, _ => EmptyString
  end.

Fixpoint drop (n : nat) (s : string) : string :=
  match n, s with
  | S m, String _ t => drop m t
  | _, _ => s
  end.

(** [strings.TrimSuffix s suffix]. *)
Definition TrimSuffix (s suf : string) : string :=
  if HasSuffix s suf then take (String.length s - String.length suf) s else s.

(** [strings.LastIndex s sep]: the index of the last occurrence of
    [sep] in [s], or [-1].  [last_from i s] is the answer for the
    suffix [s] that starts at index [i] of the whole string. *)
Fixpoint last_from (i : Z) (s sep : string) : Z :=
  match s with
  | EmptyString => if HasPrefix s sep then i else (-1)%Z
  | String _ t =>
      let later := last_from (i + 1) t sep in
      if (0 <=? later)%Z then later
      else if HasPrefix s sep then i else (-1)%Z
  end.

Definition LastIndex (s sep : string) : Z := last_from 0 s sep.

(** [strings.ReplaceAll s old new] for a non-empty [old]: occurrences
    are replaced from left to right without overlap.  [skip] counts the
    bytes of an occurrence of [old] that are still to be passed. *)
Fixpoint replace_from (skip : nat) (s old new : string) : string :=
  match s with
  | EmptyString => EmptyString
  | String c t =>
      match skip with
      | S k => replace_from k t old new
      | O =>
          if HasPrefix s old
          then new ++ replace_from (String.length old - 1) t old new
          else String c (replace_from 0 t old new)
      end
  end.

Definition ReplaceAll (s old new : string) : string := replace_from 0 s old new.

End Strings.

Import Strings.

(** ** [normalizeDomain] (main.go, lines 245-261) *)

Definition normalizeDomain (domain : string) : string :=
  let domain := ToLower domain in
  let domain := TrimSuffix domain "." in
  let idx := LastIndex domain ":" in
  if negb (idx =? -1)%Z then
    if negb (Contains (take (Z.to_nat idx) domain) ":") && negb (HasPrefix domain "[")
    then take (Z.to_nat idx) domain
    else domain
  else domain.

(** ** [isURL] (main.go, lines 230-243) *)

Definition isURL (s : string) : bool :=
  let s := TrimSpace (ToLower s) in
  Contains s "://" ||
  HasPrefix s "http:" ||
  HasPrefix s "https:" ||
  HasPrefix s "ftp:" ||
  HasPrefix s "ws:" ||
  HasPrefix s "wss:" ||
  Contains s "/" ||
  Contains s "?" ||
  Contains s "#".

(** The strings made of the bytes [:], [/], [?] and [#], which are
    what [isURL] looks for besides the scheme names. *)
Definition separators (sep : string) : Prop :=
  forall d, mem d sep = true -> mem d ":/?#" = true.

(** ** [convertWildcardToRegex] (main.go, lines 263-284) *)

Definition metacharacters : string := "^$[]{}()+?|\".

Definition convertWildcardToRegex (pattern : string) : string :=
  if ContainsAny pattern metacharacters then pattern
  else
    let pattern := ReplaceAll pattern "." "\." in
    let pattern := ReplaceAll pattern "*" ".*" in
    let pattern := if negb (HasPrefix pattern "^") then "^" ++ pattern else pattern in
    let pattern := if negb (HasSuffix pattern "$") then pattern ++ "$" else pattern in
    pattern.

(** The wildcard translation read byte by byte: [.] becomes [\.], [*]
    becomes [.*], any other byte stays.  It is compared below with the
    two calls of [ReplaceAll] in [convertWildcardToRegex]. *)
Definition expandByte (c : ascii) : string :=
  if Ascii.eqb c "." then "\."
  else if Ascii.eqb c "*" then ".*"
  else String c "".

Fixpoint expand (line : string) : string :=
  match line with
  | EmptyString => EmptyString
  | String c t => expandByte c ++ expand t
  end.

(** [d] is [l] without one trailing dot, if [l] has one. *)
Definition withoutTrailingDot (l d : string) : Prop :=
  l = d ++ "." \/ (l = d /\ HasSuffix l "." = false).

(** ** Errors and results

    A Go function returning [(T, error)] returns a [result T]. *)

Inductive error : Type :=
| LibError (msg : string)                  (* an error of [net/url] or [regexp] *)
| NoHostname (s : string)                  (* "no hostname in URL: %s" *)
| InvalidPattern (lineNum : nat) (line : string) (cause : error)
                                           (* "line %d: invalid pattern '%s': %w" *)
| ReadError (cause : error)                (* "error reading scope file: %w" *)
| NoPatterns.                              (* "no scope patterns found" *)

Inductive result (A : Type) : Type :=
| Ok (a : A)
| Err (e : error).
Arguments Ok {A} a.
Arguments Err {A} e.

(** ** The two library packages behind the engine

    [regexp] and [net/url] are not part of the repository: the engine is
    defined over any implementation of the calls it makes.  [re_String p]
    is [p.String()], the text [p] was compiled from. *)

Class GoLib : Type := {
  Regexp : Type;
  regexp_Compile : string -> result Regexp;
  MatchString : Regexp -> string -> bool;
  re_String : Regexp -> string;
  URL : Type;
  url_Parse : string -> result URL;
  Hostname : URL -> string
}.

(** ** Configuration and state (main.go, lines 17-36) *)

Record Config : Type := {
  scopeFile : string;
  verbose : bool;
  invert : bool;
  showStats : bool;
  strict : bool
}.

(** Go's [int] is a 64-bit signed integer; [x++] wraps around. *)
Definition wrap64 (z : Z) : Z := ((z + 2 ^ 63) mod 2 ^ 64 - 2 ^ 63)%Z.
Definition incr (z : Z) : Z := wrap64 (z + 1).

Module Stats.
Record t : Type := { total : Z; inScope : Z; outScope : Z }.
Definition zero : t := {| total := 0; inScope := 0; outScope := 0 |}.
Definition incTotal (s : t) : t :=
  {| total := incr (total s); inScope := inScope s; outScope := outScope s |}.
Definition incInScope (s : t) : t :=
  {| total := total s; inScope := incr (inScope s); outScope := outScope s |}.
Definition incOutScope (s : t) : t :=
  {| total := total s; inScope := inScope s; outScope := incr (outScope s) |}.
End Stats.

Section Engine.
Context {lib : GoLib}.

(** The checker; the lock [mu] has no counterpart in a sequential model. *)
Record scopeChecker : Type := {
  patterns : list Regexp;
  antipatterns : list Regexp;
  stats : Stats.t
}.

(** ** [getHostname] (main.go, lines 211-228) *)

Definition getHostname (s : string) : result string :=
  let s := if negb (Contains s "://") then "http://" ++ s else s in
  match url_Parse s with
  | Err e => Err e
  | Ok u =>
      let hostname := Hostname u in
      if String.eqb hostname "" then Err (NoHostname s) else Ok hostname
  end.

(** ** [inScope] (main.go, lines 46-100)

    Both loops of [inScope] run through a list of patterns and leave it
    at the first one that matches.  [firstMatch] returns that pattern,
    if any, together with the patterns on which [MatchString] was
    called, in the order of the calls. *)

Fixpoint firstMatch (ps : list Regexp) (domain : string)
  : option Regexp * list Regexp :=
  match ps with
  | [] => (None, [])
  | p :: rest =>
      if MatchString p domain then (Some p, [p])
      else let '(found, called) := firstMatch rest domain in (found, p :: called)
  end.

(** What a call of [inScope] returns and leaves behind: the two
    results, the checker with its updated counters, and the calls of
    [MatchString] made on the include and on the exclude patterns. *)
Record outcome : Type := {
  verdict : bool;
  matchedPattern : string;
  after : scopeChecker;
  includesCalled : list Regexp;
  excludesCalled : list Regexp
}.

Definition withStats (s : scopeChecker) (st : Stats.t) : scopeChecker :=
  {| patterns := patterns s; antipatterns := antipatterns s; stats := st |}.

(** The domain that reaches the normalisation step (lines 51-66);
    [None] is the [return false, ""] of line 59. *)
Definition extractDomain (config : Config) (input : string) : option string :=
  if isURL input then
    match getHostname input with
    | Err _ => if strict config then None else Some input
    | Ok hostname => Some hostname
    end
  else Some input.

Definition inScope (config : Config) (s : scopeChecker) (input : string) : outcome :=
  let st := Stats.incTotal (stats s) in
  match extractDomain config input with
  | None =>
      {| verdict := false; matchedPattern := ""; after := withStats s st;
         includesCalled := []; excludesCalled := [] |}
  | Some domain =>
      let domain := normalizeDomain domain in
      let '(incl, icalls) := firstMatch (patterns s) domain in
      let '(excl, ecalls) := firstMatch (antipatterns s) domain in
      match excl with
      | Some p =>
          {| verdict := false; matchedPattern := "!" ++ re_String p;
             after := withStats s (Stats.incOutScope st);
             includesCalled := icalls; excludesCalled := ecalls |}
      | None =>
          match incl with
          | Some p =>
              {| verdict := true; matchedPattern := re_String p;
                 after := withStats s (Stats.incInScope st);
                 includesCalled := icalls; excludesCalled := ecalls |}
          | None =>
              {| verdict := false; matchedPattern := "";
                 after := withStats s (Stats.incOutScope st);
                 includesCalled := icalls; excludesCalled := ecalls |}
          end
      end
  end.

(** ** [newScopeChecker] (main.go, lines 102-149)

    The reader is given by the lines the scanner yields and by the
    error, if any, that ends the scan ([sc.Err()]). *)

Fixpoint scanLines (lines : list string) (lineNum : nat)
    (pats antis : list Regexp) : result (list Regexp * list Regexp) :=
  match lines with
  | [] => Ok (pats, antis)
  | text :: rest =>
      let lineNum := S lineNum in
      let line := TrimSpace text in
      if String.eqb line "" || HasPrefix line "#" then scanLines rest lineNum pats antis
      else
        let isAnti := HasPrefix line "!" in
        let line := if isAnti then TrimSpace (drop 1 line) else line in
        let pattern := convertWildcardToRegex line in
        match regexp_Compile pattern with
        | Err e => Err (InvalidPattern lineNum line e)
        | Ok re =>
            if isAnti then scanLines rest lineNum pats (antis ++ [re])
            else scanLines rest lineNum (pats ++ [re]) antis
        end
  end.

Definition newScopeChecker (lines : list string) (scanErr : option error)
  : result scopeChecker :=
  match scanLines lines 0 [] [] with
  | Err e => Err e
  | Ok (pats, antis) =>
      match scanErr with
      | Some e => Err (ReadError e)
      | None =>
          match pats with
          | [] => Err NoPatterns
          | _ => Ok {| patterns := pats; antipatterns := antis; stats := Stats.zero |}
          end
      end
  end.

(** The domain the patterns are matched against, when the call gets
    that far. *)
Definition normalizedDomain (config : Config) (input : string) : option string :=
  option_map normalizeDomain (extractDomain config input).

(** No pattern of [ps] matches [d]. *)
Definition noneMatches (ps : list Regexp) (d : string) : Prop :=
  forall q, In q ps -> MatchString q d = false.

(** [p] is the first pattern of [ps] that matches [d]. *)
Definition firstOf (ps : list Regexp) (d : string) (before : list Regexp)
    (p : Regexp) (rest : list Regexp) : Prop :=
  ps = (before ++ p :: rest)%list /\ noneMatches before d /\ MatchString p d = true.

(** The errors of an invalid scope file: no include pattern, or a
    pattern that does not compile. *)
Definition configurationError (e : error) : bool :=
  match e with
  | NoPatterns | InvalidPattern _ _ _ => true
  | _ => false
  end.

(** The lines that give an include pattern: not blank, not a comment,
    no leading [!]. *)
Definition includeLine (text : string) : bool :=
  let line := TrimSpace text in
  negb (String.eqb line "" || HasPrefix line "#" || HasPrefix line "!").

End Engine.

(** ** A model of [regexp] for the patterns of scope files

    The fragment of Go's regular expressions (RE2 syntax) made of
    literal bytes, escaped punctuation [\c], the wild card [.] (any byte
    but a line feed), the postfix star on a single byte or on [.], and
    the anchors [^] (start of the text) and [$] (end of the text).
    Every pattern that [convertWildcardToRegex] builds from a wildcard
    line lies in this fragment.  A pattern outside of it (classes,
    groups, alternation, [+], [?], counted repetition, [\d] and the
    like) is refused by [Compile], as an ill-formed pattern is.
    Text and pattern are read byte by byte, which is Go's reading of
    ASCII text. *)

Module GoRegexp.

Inductive atom : Type :=
| Lit (c : ascii)
| AnyChar.

Inductive item : Type :=
| One (a : atom)
| Many (a : atom)
| Bol
| Eol.

Definition accepts (a : atom) (c : ascii) : bool :=
  match a with
  | Lit d => Ascii.eqb c d
  | AnyChar => negb (Ascii.eqb c "010")
  end.

Definition flush (pending : option atom) : list item :=
  match pending with
  | Some a => [One a]
  | None => []
  end.

Definition emit (its : list item) (rest : option (list item)) : option (list item) :=
  option_map (fun r => (its ++ r)%list) rest.

Definition isAlnum (c : ascii) : bool :=
  let n := nat_of_ascii c in
  ((48 <=? n) && (n <=? 57)) || ((65 <=? n) && (n <=? 90)) || ((97 <=? n) && (n <=? 122)).

(** A backslash makes a literal of an ASCII byte that is neither a
    letter nor a digit. *)
Definition escapable (c : ascii) : bool :=
  (nat_of_ascii c <? 128) && negb (isAlnum c).

(** The parser reads the pattern from left to right.  [pending] is
    the last atom read, which a following [*] may still turn into a
    repetition; [esc] says that the previous byte was a backslash. *)
Fixpoint parse_from (pending : option atom) (esc : bool) (s : string)
  : option (list item) :=
  match s with
  | EmptyString => if esc then None else Some (flush pending)
  | String c t =>
      if esc then
        if escapable c
        then emit (flush pending) (parse_from (Some (Lit c)) false t)
        else None
      else if Ascii.eqb c "\" then parse_from pending true t
      else if Ascii.eqb c "*" then
        match pending with
        | Some a => emit [Many a] (parse_from None false t)
        | None => None
        end
      else if Ascii.eqb c "^" then emit (flush pending ++ [Bol]) (parse_from None false t)
      else if Ascii.eqb c "$" then emit (flush pending ++ [Eol]) (parse_from None false t)
      else if Ascii.eqb c "." then emit (flush pending) (parse_from (Some AnyChar) false t)
      else if mem c "[]{}()+?|" then None
      else emit (flush pending) (parse_from (Some (Lit c)) false t)
  end.

Definition parse (s : string) : option (list item) := parse_from None false s.

Record t : Type := { source : string; prog : list item }.

Definition Compile (expr : string) : result t :=
  match parse expr with
  | Some p => Ok {| source := expr; prog := p |}
  | None => Err (LibError ("error parsing regexp: " ++ expr))
  end.

(** [matchstar k a start s]: a run of bytes that [a] accepts, then
    whatever [k] matches; the shortest run is tried first. *)
Fixpoint matchstar (k : bool -> string -> bool) (a : atom) (start : bool) (s : string)
  : bool :=
  k start s ||
  match s with
  | EmptyString => false
  | String c t => accepts a c && matchstar k a false t
  end.

(** [matchhere r start s]: [r] matches a prefix of [s]; [start] says
    that [s] is the whole text. *)
Fixpoint matchhere (r : list item) (start : bool) (s : string) : bool :=
  match r with
  | [] => true
  | Bol :: r' => start && matchhere r' start s
  | Eol :: r' =>
      match s with
      | EmptyString => matchhere r' start s
      | String _ _ => false
      end
  | One a :: r' =>
      match s with
      | EmptyString => false
      | String c t => accepts a c && matchhere r' false t
      end
  | Many a :: r' => matchstar (matchhere r') a start s
  end.

(** A match may begin at any position of the text. *)
Fixpoint search (r : list item) (start : bool) (s : string) : bool :=
  matchhere r start s ||
  match s with
  | EmptyString => false
  | String _ t => search r false t
  end.

Definition MatchString (re : t) (s : string) : bool := search (prog re) true s.

(** What it means for [r] to match the piece [mid] of the text
    [pre ++ mid ++ post]. *)
Inductive Span : list item -> string -> string -> string -> Prop :=
| span_nil pre post : Span [] pre "" post
| span_bol r mid post :
    Span r "" mid post -> Span (Bol :: r) "" mid post
| span_eol r pre :
    Span r pre "" "" -> Span (Eol :: r) pre "" ""
| span_one a c r pre mid post :
    accepts a c = true ->
    Span r (pre ++ String c "") mid post ->
    Span (One a :: r) pre (String c mid) post
| span_many_stop a r pre mid post :
    Span r pre mid post -> Span (Many a :: r) pre mid post
| span_many_step a c r pre mid post :
    accepts a c = true ->
    Span (Many a :: r) (pre ++ String c "") mid post ->
    Span (Many a :: r) pre (String c mid) post.

(** The wildcard reading of a scope-file line: [*] stands for any
    run of bytes without a line feed, any other byte for itself. *)
Inductive Glob : string -> string -> Prop :=
| glob_nil : Glob "" ""
| glob_char c line d : c <> "*"%char -> Glob line d -> Glob (String c line) (String c d)
| glob_star_stop line d : Glob line d -> Glob (String "*" line) d
| glob_star_step c line d :
    c <> "010"%char -> Glob (String "*" line) d -> Glob (String "*" line) (String c d).

(** The items of a wildcard line. *)
Definition globItem (c : ascii) : item :=
  if Ascii.eqb c "*" then Many AnyChar else One (Lit c).

Fixpoint globItems (line : string) : list item :=
  match line with
  | EmptyString => []
  | String c t => globItem c :: globItems t
  end.

Definition isEmpty (s : string) : bool :=
  match s with
  | EmptyString => true
  | String _ _ => false
  end.

End GoRegexp.

(** ** A model of [net/url]

    [Parse] and [Hostname] after the source of Go 1.21, as far as the
    host name depends on it: the scheme, the query and the fragment are
    split off, the authority is cut out of the rest, and the host is
    checked and unescaped.  The path and the fragment are kept in their
    escaped form, the user information is checked and dropped, and the
    zone of an IPv6 literal is read like the rest of the host. *)

Module GoURL.

Record t : Type := {
  Scheme : string;
  Opaque : string;
  Host : string;
  Path : string;
  RawQuery : string;
  Fragment : string
}.

Definition byteIn (lo hi : nat) (c : ascii) : bool :=
  (lo <=? nat_of_ascii c) && (nat_of_ascii c <=? hi).

Definition isLetter (c : ascii) : bool := byteIn 97 122 c || byteIn 65 90 c.
Definition isDigit (c : ascii) : bool := byteIn 48 57 c.

(** [strings.Cut s sep] for a separator of one byte. *)
Fixpoint Cut (s : string) (sep : ascii) : string * string * bool :=
  match s with
  | EmptyString => (EmptyString, EmptyString, false)
  | String c t =>
      if Ascii.eqb c sep then (EmptyString, t, true)
      else let '(before, rest, found) := Cut t sep in (String c before, rest, found)
  end.

(** [strings.Count s sep] for a separator of one byte. *)
Fixpoint Count (s : string) (sep : ascii) : nat :=
  match s with
  | EmptyString => 0
  | String c t => (if Ascii.eqb c sep then 1 else 0) + Count t sep
  end.

Fixpoint stringContainsCTLByte (s : string) : bool :=
  match s with
  | EmptyString => false
  | String c t =>
      (nat_of_ascii c <? 32) || (nat_of_ascii c =? 127) || stringContainsCTLByte t
  end.

(** [getScheme]: [i] tells whether the byte read is the first one. *)
Fixpoint scanScheme (first : bool) (seen s whole : string) : result (string * string) :=
  match s with
  | EmptyString => Ok (EmptyString, whole)
  | String c t =>
      if isLetter c then scanScheme false (seen ++ String c "") t whole
      else if isDigit c || mem c "+-." then
        if first then Ok (EmptyString, whole)
        else scanScheme false (seen ++ String c "") t whole
      else if Ascii.eqb c ":" then
        if first then Err (LibError "missing protocol scheme") else Ok (seen, t)
      else Ok (EmptyString, whole)
  end.

Definition getScheme (rawURL : string) : result (string * string) :=
  scanScheme true "" rawURL rawURL.

Definition ishex (c : ascii) : bool :=
  isDigit c || byteIn 97 102 c || byteIn 65 70 c.

Definition unhex (c : ascii) : nat :=
  let n := nat_of_ascii c in
  if isDigit c then n - 48
  else if byteIn 97 102 c then n - 97 + 10
  else if byteIn 65 70 c then n - 65 + 10
  else 0.

(** [shouldEscape c encodeHost]. *)
Definition shouldEscapeHost (c : ascii) : bool :=
  negb (isLetter c || isDigit c || mem c "!$&'()*+,;=:[]<>" || (nat_of_ascii c =? 34)
        || mem c "-_.~").

(** The checks of [unescape s encodeHost]. *)
Fixpoint hostBytesOK (s : string) : bool :=
  match s with
  | EmptyString => true
  | String c t =>
      if Ascii.eqb c "%" then
        match t with
        | String a (String b t') =>
            ishex a && ishex b &&
            ((8 <=? unhex a) || (Ascii.eqb a "2" && Ascii.eqb b "5")) &&
            hostBytesOK t'
        | _ => false
        end
      else ((128 <=? nat_of_ascii c) || negb (shouldEscapeHost c)) && hostBytesOK t
  end.

(** The checks of [unescape] in the other modes: every [%] is followed
    by two hexadecimal digits. *)
Fixpoint escapesOK (s : string) : bool :=
  match s with
  | EmptyString => true
  | String c t =>
      if Ascii.eqb c "%" then
        match t with
        | String a (String b t') => ishex a && ishex b && escapesOK t'
        | _ => false
        end
      else escapesOK t
  end.

(** The value of [unescape]: each [%XX] becomes the byte it denotes. *)
Fixpoint unescaped (s : string) : string :=
  match s with
  | EmptyString => EmptyString
  | String c t =>
      if Ascii.eqb c "%" then
        match t with
        | String a (String b t') =>
            String (ascii_of_nat (16 * unhex a + unhex b)) (unescaped t')
        | _ => String c (unescaped t)
        end
      else String c (unescaped t)
  end.

Fixpoint allDigits (s : string) : bool :=
  match s with
  | EmptyString => true
  | String c t => isDigit c && allDigits t
  end.

Definition validOptionalPort (port : string) : bool :=
  match port with
  | EmptyString => true
  | String c t => Ascii.eqb c ":" && allDigits t
  end.

Fixpoint validUserinfo (s : string) : bool :=
  match s with
  | EmptyString => true
  | String c t =>
      (isLetter c || isDigit c || mem c "-._:~!$&'()*+,;=%@") && validUserinfo t
  end.

Definition parseHost (host : string) : result string :=
  let portOK :=
    if HasPrefix host "[" then
      let i := LastIndex host "]" in
      if (i <? 0)%Z then Err (LibError "missing ']' in host")
      else if negb (validOptionalPort (drop (Z.to_nat i + 1) host))
      then Err (LibError "invalid port after host")
      else Ok tt
    else
      let i := LastIndex host ":" in
      if negb (i =? -1)%Z && negb (validOptionalPort (drop (Z.to_nat i) host))
      then Err (LibError "invalid port after host")
      else Ok tt in
  match portOK with
  | Err e => Err e
  | Ok _ =>
      if hostBytesOK host then Ok (unescaped host)
      else Err (LibError "invalid character or escape in host name")
  end.

Definition parseAuthority (authority : string) : result string :=
  let i := LastIndex authority "@" in
  let host :=
    if (i <? 0)%Z then parseHost authority
    else parseHost (drop (Z.to_nat i + 1) authority) in
  match host with
  | Err e => Err e
  | Ok h =>
      if (i <? 0)%Z then Ok h
      else
        let userinfo := take (Z.to_nat i) authority in
        if negb (validUserinfo userinfo) then Err (LibError "net/url: invalid userinfo")
        else if negb (escapesOK userinfo) then Err (LibError "invalid URL escape")
        else Ok h
  end.

(** [setPath]: the path must unescape. *)
Definition withPath (scheme host rest query : string) : result t :=
  if escapesOK rest
  then Ok {| Scheme := scheme; Opaque := ""; Host := host; Path := rest;
             RawQuery := query; Fragment := "" |}
  else Err (LibError "invalid URL escape").

(** [parse rawURL false]. *)
Definition parse (rawURL : string) : result t :=
  if stringContainsCTLByte rawURL
  then Err (LibError "net/url: invalid control character in URL")
  else if String.eqb rawURL "*"
  then Ok {| Scheme := ""; Opaque := ""; Host := ""; Path := "*";
             RawQuery := ""; Fragment := "" |}
  else
    match getScheme rawURL with
    | Err e => Err e
    | Ok (scheme, rest) =>
        let scheme := ToLower scheme in
        let '(rest, query) :=
          if HasSuffix rest "?" && (Count rest "?" =? 1)
          then (take (String.length rest - 1) rest, "")
          else let '(before, q, _) := Cut rest "?" in (before, q) in
        if negb (HasPrefix rest "/") && negb (String.eqb scheme "")
        then Ok {| Scheme := scheme; Opaque := rest; Host := ""; Path := "";
                   RawQuery := query; Fragment := "" |}
        else if negb (HasPrefix rest "/")
                && (let '(segment, _, _) := Cut rest "/" in Contains segment ":")
        then Err (LibError "first path segment in URL cannot contain colon")
        else if (negb (String.eqb scheme "") || negb (HasPrefix rest "///"))
                && HasPrefix rest "//"
        then
          let authority := drop 2 rest in
          let '(authority, rest, found) := Cut authority "/" in
          let rest := if found then String "/" rest else "" in
          match parseAuthority authority with
          | Err e => Err e
          | Ok host => withPath scheme host rest query
          end
        else withPath scheme "" rest query
    end.

(** [url.Parse]. *)
Definition Parse (rawURL : string) : result t :=
  let '(u, frag, _) := Cut rawURL "#" in
  match parse u with
  | Err e => Err e
  | Ok url =>
      if String.eqb frag "" then Ok url
      else if escapesOK frag
      then Ok {| Scheme := Scheme url; Opaque := Opaque url; Host := Host url;
                 Path := Path url; RawQuery := RawQuery url; Fragment := frag |}
      else Err (LibError "invalid URL escape")
  end.

(** The method [Hostname] of a URL, that is [splitHostPort] on the host. *)
Definition Hostname (u : t) : string :=
  let host := Host u in
  let colon := LastIndex host ":" in
  let host :=
    if negb (colon =? -1)%Z && validOptionalPort (drop (Z.to_nat colon) host)
    then take (Z.to_nat colon) host else host in
  if HasPrefix host "[" && HasSuffix host "]"
  then take (String.length host - 2) (drop 1 host)
  else host.

End GoURL.

(** The engine over the two models. *)
Definition model : GoLib := {|
  Regexp := GoRegexp.t;
  regexp_Compile := GoRegexp.Compile;
  MatchString := GoRegexp.MatchString;
  re_String := GoRegexp.source;
  URL := GoURL.t;
  url_Parse := GoURL.Parse;
  Hostname := GoURL.Hostname
|}.

Definition defaultConfig : Config :=
  {| scopeFile := ""; verbose := false; invert := false; showStats := false;
     strict := false |}.

Definition strictConfig : Config :=
  {| scopeFile := ""; verbose := false; invert := false; showStats := false;
     strict := true |}.

(** What an outcome shows of the patterns: their texts. *)
Definition texts (ps : list GoRegexp.t) : list string := map GoRegexp.source ps.

Definition summary (o : @outcome model)
  : bool * string * (Z * Z * Z) * list string * list string :=
  (verdict o, matchedPattern o,
   (Stats.total (stats (after o)), Stats.inScope (stats (after o)),
    Stats.outScope (stats (after o))),
   texts (includesCalled o), texts (excludesCalled o)).

(** Build a checker from scope-file lines and classify one input. *)
Definition classify (config : Config) (lines : list string) (input : string)
  : option (bool * string * (Z * Z * Z) * list string * list string) :=
  match @newScopeChecker model lines None with
  | Err _ => None
  | Ok s => Some (summary (@inScope model config s input))
  end.


(** The checker of a scope file that is known to be valid. *)
Definition build (lines : list string) : @scopeChecker model :=
  match @newScopeChecker model lines None with
  | Ok s => s
  | Err _ => {| patterns := []; antipatterns := []; stats := Stats.zero |}
  end.

(** ** The rest of the program

    [main] and [openScopefile] reach the outside through [os] and
    [path/filepath]; they are defined over any implementation of the
    calls they make.  [fileLines f] is what a [bufio.Scanner] reads
    from the open file [f]: its lines, and the error, if any, that ends
    the scan. *)

Class GoOS : Type := {
  File : Type;
  os_Open : string -> result File;
  os_Getwd : result string;
  os_UserHomeDir : result string;
  filepath_Join : list string -> string;
  filepath_Dir : string -> string;
  fileLines : File -> list string * option error
}.

(** The errors of [openScopefile]. *)
Inductive openError : Type :=
| CannotOpen (path : string) (cause : error)   (* "cannot open scope file '%s': %w" *)
| CannotGetwd (cause : error)                  (* "cannot get working directory: %w" *)
| NotFound.                                    (* "unable to find .scope file (...)" *)

Definition newline : string := String "010" "".

Section Program.
Context {lib : GoLib} {os : GoOS}.

(** ** The input loop of [main] (main.go, lines 170-191)

    What one line of the input adds to the standard output, given the
    answer of [inScope] for it. *)
Definition printed (config : Config) (input : string) (o : outcome) : list string :=
  let inScope := verdict o in
  let inScope := if invert config then negb inScope else inScope in
  if inScope then
    [ if verbose config && negb (String.eqb (matchedPattern o) "")
      then input ++ " [" ++ matchedPattern o ++ "]"
      else input ]
  else [].

(** The loop over the lines of the input: the lines printed, and the
    checker as the loop leaves it. *)
Fixpoint mainLoop (config : Config) (checker : scopeChecker) (lines : list string)
  : list string * scopeChecker :=
  match lines with
  | [] => ([], checker)
  | text :: rest =>
      let input := TrimSpace text in
      if String.eqb input "" then mainLoop config checker rest
      else
        let o := inScope config checker input in
        let '(out, final) := mainLoop config (after o) rest in
        ((printed config input o ++ out)%list, final)
  end.

(** The inputs that reach [inScope]: the lines, trimmed, without the
    empty ones. *)
Definition inputs (lines : list string) : list string :=
  filter (fun input => negb (String.eqb input "")) (map TrimSpace lines).

(** ** [openScopefile] (main.go, lines 286-341)

    What a call returns and does: the file or the error, the paths
    handed to [os.Open], in the order of the calls, and the lines
    written to the standard error. *)
Inductive opening : Type :=
| Opened (f : File)
| Failed (e : openError).

Record located : Type := {
  answer : opening;
  tried : list string;
  messages : list string
}.

Definition usingMessage (config : Config) (path : string) : list string :=
  if verbose config then ["Using scope file: " ++ path ++ newline] else [].

(** The loop of lines 302-318, from the directory [pwd] upwards.  The
    loop ends when [filepath.Dir] returns its argument; [fuel] bounds
    the number of directories visited, and [None] says that it did not
    suffice. *)
Fixpoint searchUp (fuel : nat) (pwd : string)
  : option (option (File * string) * list string) :=
  match fuel with
  | O => None
  | S fuel' =>
      let scopePath := filepath_Join [pwd; ".scope"] in
      match os_Open scopePath with
      | Ok f => Some (Some (f, scopePath), [scopePath])
      | Err _ =>
          let parent := filepath_Dir pwd in
          if String.eqb parent pwd then Some (None, [scopePath])
          else
            match searchUp fuel' parent with
            | Some (found, paths) => Some (found, scopePath :: paths)
            | None => None
            end
      end
  end.

(** The loop of lines 329-337 over the common locations. *)
Fixpoint firstOpen (locations : list string) : option (File * string) * list string :=
  match locations with
  | [] => (None, [])
  | loc :: rest =>
      match os_Open loc with
      | Ok f => (Some (f, loc), [loc])
      | Err _ => let '(found, paths) := firstOpen rest in (found, loc :: paths)
      end
  end.

Definition commonLocations (homeDir : string) : list string :=
  [ filepath_Join [homeDir; ".scope"];
    filepath_Join [homeDir; ".config"; "inscope"; "scope"];
    "/etc/inscope/scope" ].

Definition openScopefile (fuel : nat) (config : Config) : option located :=
  if negb (String.eqb (scopeFile config) "") then
    match os_Open (scopeFile config) with
    | Err e =>
        Some {| answer := Failed (CannotOpen (scopeFile config) e);
                tried := [scopeFile config]; messages := [] |}
    | Ok f =>
        Some {| answer := Opened f; tried := [scopeFile config]; messages := [] |}
    end
  else
    match os_Getwd with
    | Err e => Some {| answer := Failed (CannotGetwd e); tried := []; messages := [] |}
    | Ok pwd =>
        match searchUp fuel pwd with
        | None => None
        | Some (Some (f, scopePath), paths) =>
            Some {| answer := Opened f; tried := paths;
                    messages := usingMessage config scopePath |}
        | Some (None, paths) =>
            match os_UserHomeDir with
            | Ok homeDir =>
                match firstOpen (commonLocations homeDir) with
                | (Some (f, loc), more) =>
                    Some {| answer := Opened f; tried := (paths ++ more)%list;
                            messages := usingMessage config loc |}
                | (None, more) =>
                    Some {| answer := Failed NotFound; tried := (paths ++ more)%list;
                            messages := [] |}
                end
            | Err _ =>
                Some {| answer := Failed NotFound; tried := paths; messages := [] |}
            end
        end
    end.

(** The directory [k] levels above [pwd], and the path of its scope
    file. *)
Definition ancestor (pwd : string) (k : nat) : string := Nat.iter k filepath_Dir pwd.

Definition scopePathAt (pwd : string) (k : nat) : string :=
  filepath_Join [ancestor pwd k; ".scope"].

(** None of the [k] directories from [pwd] upwards has a scope file
    that opens, and none of them is its own parent. *)
Definition noneBelow (pwd : string) (k : nat) : Prop :=
  forall i, i < k ->
    (exists e, os_Open (scopePathAt pwd i) = Err e) /\
    filepath_Dir (ancestor pwd i) <> ancestor pwd i.

(** ** [main] (main.go, lines 151-209)

    The standard output and the exit status of [main], given the flags,
    what [openScopefile] returned, and the standard input as the
    scanner reads it: its lines and the error, if any, that ends the
    scan.  The lines written to the standard error are left out, the
    statistics among them; [counters] are the counters they would
    report. *)
Record run : Type := {
  stdout : list string;
  exitStatus : nat;
  counters : option Stats.t
}.

Definition main (config : Config) (sf : opening) (stdin : list string)
    (stdinErr : option error) : run :=
  match sf with
  | Failed _ => {| stdout := []; exitStatus := 1; counters := None |}
  | Opened f =>
      let '(lines, scanErr) := fileLines f in
      match newScopeChecker lines scanErr with
      | Err _ => {| stdout := []; exitStatus := 1; counters := None |}
      | Ok checker =>
          let '(out, final) := mainLoop config checker stdin in
          match stdinErr with
          | Some _ => {| stdout := out; exitStatus := 1; counters := None |}
          | None =>
              {| stdout := out; exitStatus := 0;
                 counters := if showStats config then Some (stats final) else None |}
          end
      end
  end.

(** The lines of a scope file that are neither blank nor comments. *)
Definition significant (text : string) : bool :=
  let line := TrimSpace text in
  negb (String.eqb line "" || HasPrefix line "#").

(** The exclude lines, and the pattern text a significant line is
    compiled from. *)
Definition excludeLine (text : string) : bool :=
  significant text && HasPrefix (TrimSpace text) "!".

Definition patternLine (text : string) : string :=
  let line := TrimSpace text in
  if HasPrefix line "!" then TrimSpace (drop 1 line) else line.

Definition patternText (text : string) : string :=
  convertWildcardToRegex (patternLine text).

(** The flags with [-i] set or cleared. *)
Definition withInvert (b : bool) (config : Config) : Config :=
  {| scopeFile := scopeFile config; verbose := verbose config; invert := b;
     showStats := showStats config; strict := strict config |}.

(** The inputs that [inScope] answers in scope, and those it answers
    out of scope after it has tried the patterns. *)
Definition accepted (config : Config) (s : scopeChecker) (input : string) : bool :=
  verdict (inScope config s input).

Definition rejected (config : Config) (s : scopeChecker) (input : string) : bool :=
  negb (verdict (inScope config s input)) &&
  match extractDomain config input with
  | Some _ => true
  | None => false
  end.

Definition count (f : string -> bool) (l : list string) : Z :=
  Z.of_nat (List.length (filter f l)).

(** A line and the pattern compiled from it. *)
Definition compiledFrom (text : string) (re : Regexp) : Prop :=
  regexp_Compile (patternText text) = Ok re.

End Program.

(** ** A model of the file system

    Files are given by their absolute paths, with [/] between the
    names.  [Dir] takes the last name off a path, and the root is its
    own parent, as [filepath.Dir] has it on such paths. *)

Module ToyFS.

Record t : Type := {
  files : list (string * list string);
  cwd : string;
  home : option string
}.

Fixpoint lookup (path : string) (fs : list (string * list string))
  : option (list string) :=
  match fs with
  | [] => None
  | (p, content) :: rest => if String.eqb p path then Some content else lookup path rest
  end.

Definition Open (d : t) (path : string) : result (list string) :=
  match lookup path (files d) with
  | Some content => Ok content
  | None => Err (LibError ("open " ++ path ++ ": no such file or directory"))
  end.

Fixpoint Join (elems : list string) : string :=
  match elems with
  | [] => ""
  | [e] => e
  | e :: rest => if String.eqb e "/" then "/" ++ Join rest else e ++ "/" ++ Join rest
  end.

Definition Dir (path : string) : string :=
  let i := LastIndex path "/" in
  if (i <? 0)%Z then "."
  else if (i =? 0)%Z then "/"
  else take (Z.to_nat i) path.

Definition os (d : t) : GoOS := {|
  File := list string;
  os_Open := Open d;
  os_Getwd := Ok (cwd d);
  os_UserHomeDir :=
    match home d with
    | Some h => Ok h
    | None => Err (LibError "$HOME is not defined")
    end;
  filepath_Join := Join;
  filepath_Dir := Dir;
  fileLines := fun content => (content, None)
|}.

(** A project directory with a scope file two levels above the working
    directory, and a home directory with one more. *)
Definition project : t := {|
  files := [ ("/work/acme/.scope", ["*.acme.test"; "!dev.acme.test"]);
             ("/home/ann/.scope", ["*.example.com"]) ];
  cwd := "/work/acme/recon/out";
  home := Some "/home/ann"
|}.

(** The same without a home directory and without the project file. *)
Definition homeless : t := {|
  files := [ ("/etc/inscope/scope", ["*.example.com"]) ];
  cwd := "/work/acme";
  home := None
|}.

Definition system : t := {|
  files := [ ("/etc/inscope/scope", ["*.example.com"]) ];
  cwd := "/work/acme";
  home := Some "/home/ann"
|}.

End ToyFS.

(** * Properties *)

(** ** Strings *)

Section StringFacts.

Lemma append_nil_r (s : string) : s ++ "" = s.
Proof. induction s as [|c s IH]; simpl; [reflexivity | now rewrite IH]. Qed.

Lemma append_assoc (a b c : string) : (a ++ b) ++ c = a ++ (b ++ c).
Proof. induction a as [|x a IH]; simpl; [reflexivity | now rewrite IH]. Qed.

Lemma length_append (a b : string) :
  String.length (a ++ b) = String.length a + String.length b.
Proof. induction a as [|x a IH]; simpl; [reflexivity | now rewrite IH]. Qed.

Lemma prefix_nil (s : string) : String.prefix "" s = true.
Proof. destruct s; reflexivity. Qed.

Lemma HasPrefix_byte (c d : ascii) (t : string) :
  HasPrefix (String c t) (String d "") = Ascii.eqb c d.
Proof.
  unfold HasPrefix; simpl.
  destruct (ascii_dec d c) as [->|ne].
  - now rewrite prefix_nil, Ascii.eqb_refl.
  - symmetry; apply Ascii.eqb_neq; congruence.
Qed.

Lemma HasPrefix_byte_nil (d : ascii) : HasPrefix "" (String d "") = false.
Proof. reflexivity. Qed.

(** [Contains] for a separator of one byte is membership of the byte. *)
Lemma Contains_byte (s : string) (d : ascii) :
  Contains s (String d "") = mem d s.
Proof.
  induction s as [|c s IH]; [reflexivity|].
  cbn [Contains mem]. rewrite HasPrefix_byte, IH.
  now rewrite (Ascii.eqb_sym c d).
Qed.

Lemma mem_append (c : ascii) (a b : string) : mem c (a ++ b) = mem c a || mem c b.
Proof.
  induction a as [|x a IH]; simpl; [reflexivity|].
  now rewrite IH, orb_assoc.
Qed.

Lemma take_append (a b : string) : take (String.length a) (a ++ b) = a.
Proof. induction a as [|x a IH]; simpl; [now destruct b | now rewrite IH]. Qed.

Lemma rev_append (a b : string) : rev (a ++ b) = rev b ++ rev a.
Proof.
  induction a as [|x a IH]; simpl.
  - now rewrite append_nil_r.
  - now rewrite IH, append_assoc.
Qed.

(** A string that ends with the byte [c] contains [c]. *)
Lemma rev_head_mem (s r : string) (c : ascii) : rev s = String c r -> mem c s = true.
Proof.
  revert r; induction s as [|x s IH]; intros r E; simpl in *; [discriminate|].
  destruct (rev s) as [|y q] eqn:R; simpl in E.
  - injection E as -> _. now rewrite Ascii.eqb_refl.
  - injection E as -> _. rewrite (IH q eq_refl). apply orb_true_r.
Qed.

Lemma HasSuffix_byte_mem (s : string) (c : ascii) :
  HasSuffix s (String c "") = true -> mem c s = true.
Proof.
  unfold HasSuffix; intros H. destruct (rev s) as [|y q] eqn:R; simpl in H; [discriminate|].
  destruct (ascii_dec c y) as [->|]; [|discriminate].
  exact (rev_head_mem _ _ _ R).
Qed.

Lemma rev_involutive (s : string) : rev (rev s) = s.
Proof.
  induction s as [|c s IH]; [reflexivity|].
  simpl. now rewrite rev_append, IH.
Qed.

Lemma HasSuffix_byte_inv (s : string) (c : ascii) :
  HasSuffix s (String c "") = true -> exists d, s = d ++ String c "".
Proof.
  unfold HasSuffix. change (rev (String c "")) with (String c "").
  intros H. destruct (rev s) as [|y q] eqn:R; cbn [String.prefix] in H; [discriminate|].
  destruct (ascii_dec c y) as [->|]; [|discriminate].
  exists (rev q). rewrite <- (rev_involutive s), R. reflexivity.
Qed.

Lemma HasSuffix_append_byte (d : string) (c : ascii) :
  HasSuffix (d ++ String c "") (String c "") = true.
Proof.
  unfold HasSuffix. rewrite rev_append. simpl.
  destruct (ascii_dec c c); [apply prefix_nil | congruence].
Qed.

Lemma TrimSuffix_append_byte (d : string) (c : ascii) :
  TrimSuffix (d ++ String c "") (String c "") = d.
Proof.
  unfold TrimSuffix. rewrite HasSuffix_append_byte, length_append. simpl.
  replace (String.length d + 1 - 1) with (String.length d) by lia.
  apply take_append.
Qed.

(** [LastIndex] for a separator of one byte. *)
Lemma last_from_absent (s : string) (c : ascii) (i : Z) :
  mem c s = false -> last_from i s (String c "") = (-1)%Z.
Proof.
  revert i; induction s as [|x s IH]; intros i M; [reflexivity|].
  simpl in M. apply orb_false_iff in M as [Mx Ms].
  cbn [last_from]. rewrite (IH _ Ms), HasPrefix_byte.
  now rewrite (Ascii.eqb_sym x c), Mx.
Qed.

Lemma last_from_lower (s sep : string) (i : Z) :
  (last_from i s sep = -1 \/ i <= last_from i s sep)%Z.
Proof.
  revert i; induction s as [|x s IH]; intros i; cbn [last_from].
  - destruct (HasPrefix "" sep); lia.
  - destruct (IH (i + 1)%Z) as [E|L].
    + rewrite E. destruct (HasPrefix (String x s) sep); simpl; lia.
    + destruct (0 <=? last_from (i + 1) s sep)%Z eqn:P; [lia|].
      destruct (HasPrefix (String x s) sep); lia.
Qed.

Lemma last_from_split (host port : string) (c : ascii) (i : Z) :
  (0 <= i)%Z -> mem c port = false ->
  last_from i (host ++ String c port) (String c "") = (i + Z.of_nat (String.length host))%Z.
Proof.
  revert i; induction host as [|x host IH]; intros i Hi M.
  - simpl append. cbn [last_from]. rewrite (last_from_absent _ _ _ M), HasPrefix_byte.
    rewrite Ascii.eqb_refl. simpl. lia.
  - simpl append. cbn [last_from]. rewrite (IH (i + 1)%Z) by (assumption || lia).
    destruct (0 <=? i + 1 + Z.of_nat (String.length host))%Z eqn:P.
    + cbn [String.length]. lia.
    + apply Z.leb_gt in P. lia.
Qed.

Lemma LastIndex_absent (s : string) (c : ascii) :
  mem c s = false -> LastIndex s (String c "") = (-1)%Z.
Proof. apply last_from_absent. Qed.

Lemma LastIndex_split (host port : string) (c : ascii) :
  mem c port = false ->
  LastIndex (host ++ String c port) (String c "") = Z.of_nat (String.length host).
Proof. intros M. unfold LastIndex. now rewrite last_from_split. Qed.

(** [ReplaceAll] for an [old] of one byte works byte by byte. *)
Lemma replace_byte_cons (c o : ascii) (t new : string) :
  replace_from 0 (String c t) (String o "") new =
  (if Ascii.eqb c o then new else String c "") ++ replace_from 0 t (String o "") new.
Proof.
  cbn [replace_from]. rewrite HasPrefix_byte.
  destruct (Ascii.eqb c o); reflexivity.
Qed.

Lemma replace_byte_append (a b : string) (o : ascii) (new : string) :
  replace_from 0 (a ++ b) (String o "") new =
  replace_from 0 a (String o "") new ++ replace_from 0 b (String o "") new.
Proof.
  induction a as [|x a IH]; [reflexivity|].
  change (String x a ++ b) with (String x (a ++ b)).
  rewrite !replace_byte_cons, IH. now rewrite append_assoc.
Qed.

End StringFacts.

(** ** Pattern translation *)

Section Translation.

Lemma ContainsAny_false_mem (s chars : string) (d : ascii) :
  ContainsAny s chars = false -> mem d chars = true -> mem d s = false.
Proof.
  induction s as [|c s IH]; intros A M; [reflexivity|].
  simpl in A. apply orb_false_iff in A as [Ac As].
  simpl. rewrite (IH As M), orb_false_r.
  destruct (Ascii.eqb_spec d c) as [->|]; [congruence | reflexivity].
Qed.

Lemma HasPrefix_byte_mem (s : string) (c : ascii) :
  HasPrefix s (String c "") = true -> mem c s = true.
Proof.
  destruct s as [|x s]; [discriminate|].
  rewrite HasPrefix_byte. intros E. simpl.
  now rewrite (Ascii.eqb_sym c x), E.
Qed.

(** The translation adds no byte other than a backslash, a dot or a
    star. *)
Lemma mem_expand (c : ascii) (line : string) :
  mem c "\.*" = false -> mem c (expand line) = mem c line.
Proof.
  intros N. induction line as [|x line IH]; [reflexivity|].
  cbn [expand]. rewrite mem_append, IH. cbn [mem]. f_equal.
  unfold expandByte.
  simpl in N. rewrite orb_false_r in N.
  apply orb_false_iff in N as [N1 N2]. apply orb_false_iff in N2 as [N2 N3].
  destruct (Ascii.eqb_spec x ".") as [->|].
  - simpl. now rewrite N1, N2.
  - destruct (Ascii.eqb_spec x "*") as [->|].
    + simpl. now rewrite N2, N3.
    + simpl. now rewrite orb_false_r.
Qed.

(** The two passes of [ReplaceAll] amount to the byte-wise translation. *)
Lemma ReplaceAll_twice (line : string) :
  ReplaceAll (ReplaceAll line "." "\.") "*" ".*" = expand line.
Proof.
  unfold ReplaceAll. induction line as [|c line IH]; [reflexivity|].
  rewrite replace_byte_cons, replace_byte_append, IH. cbn [expand]. f_equal.
  unfold expandByte. destruct (Ascii.eqb_spec c ".") as [->|ne]; [reflexivity|].
  rewrite replace_byte_cons. cbn [replace_from].
  destruct (Ascii.eqb c "*"); reflexivity.
Qed.

Lemma convert_passthrough (line : string) :
  ContainsAny line metacharacters = true -> convertWildcardToRegex line = line.
Proof. intros M. unfold convertWildcardToRegex. now rewrite M. Qed.

Lemma convert_wildcard (line : string) :
  ContainsAny line metacharacters = false ->
  convertWildcardToRegex line = "^" ++ expand line ++ "$".
Proof.
  intros M. unfold convertWildcardToRegex. rewrite M, ReplaceAll_twice.
  assert (P : HasPrefix (expand line) "^" = false).
  { destruct (HasPrefix (expand line) "^") eqn:E; [|reflexivity].
    apply HasPrefix_byte_mem in E. rewrite mem_expand in E by reflexivity.
    now rewrite (ContainsAny_false_mem _ _ "^" M eq_refl) in E. }
  rewrite P. cbn [negb].
  assert (S : HasSuffix ("^" ++ expand line) "$" = false).
  { destruct (HasSuffix ("^" ++ expand line) "$") eqn:E; [|reflexivity].
    apply HasSuffix_byte_mem in E. rewrite mem_append, mem_expand in E by reflexivity.
    now rewrite (ContainsAny_false_mem _ _ "$" M eq_refl) in E. }
  rewrite S. reflexivity.
Qed.

End Translation.

(** C4. A line with one of the bytes [^ $ [ ] { } ( ) + ? | \] is the
    pattern text as it stands.  Any other line becomes [^], then the
    line with each [.] replaced by [\.] and each [*] by [.*], then [$].
    The pattern of [*.example.com] matches [foo.example.com] and does
    not match [example.com]. *)
Theorem C4_pattern_compilation :
  (forall line, ContainsAny line "^$[]{}()+?|\" = true ->
     convertWildcardToRegex line = line) /\
  (forall line, ContainsAny line "^$[]{}()+?|\" = false ->
     convertWildcardToRegex line = "^" ++ expand line ++ "$") /\
  (exists re, GoRegexp.Compile (convertWildcardToRegex "*.example.com") = Ok re /\
     GoRegexp.source re = "^.*\.example\.com$" /\
     GoRegexp.MatchString re "foo.example.com" = true /\
     GoRegexp.MatchString re "example.com" = false).
Proof.
  split; [exact convert_passthrough|].
  split; [exact convert_wildcard|].
  eexists. split; [reflexivity|]. repeat split.
Qed.

(** ** Normalisation *)

Section Normalisation.

Lemma TrimSuffix_dot (l d : string) : withoutTrailingDot l d -> TrimSuffix l "." = d.
Proof.
  intros [->|[-> E]].
  - apply TrimSuffix_append_byte.
  - unfold TrimSuffix. now rewrite E.
Qed.

Lemma normalize_no_colon (domain d : string) :
  withoutTrailingDot (ToLower domain) d -> Contains d ":" = false ->
  normalizeDomain domain = d.
Proof.
  intros W C. unfold normalizeDomain. rewrite (TrimSuffix_dot _ _ W).
  rewrite Contains_byte in C. now rewrite (LastIndex_absent _ _ C).
Qed.

Lemma normalize_colon (domain d host port : string) :
  withoutTrailingDot (ToLower domain) d ->
  d = host ++ ":" ++ port -> Contains port ":" = false ->
  normalizeDomain domain =
  if negb (Contains host ":") && negb (HasPrefix d "[") then host else d.
Proof.
  intros W -> C. unfold normalizeDomain. rewrite (TrimSuffix_dot _ _ W).
  rewrite Contains_byte in C. change (":" ++ port) with (String ":" port).
  rewrite (LastIndex_split _ _ _ C), Nat2Z.id, take_append.
  destruct (Z.of_nat (String.length host) =? -1)%Z eqn:E; [|reflexivity].
  apply Z.eqb_eq in E. lia.
Qed.

End Normalisation.

(** C5. [normalizeDomain] lowers the case of the whole string and
    takes one trailing dot off; of what is left, [d], it takes off the
    part from the last colon on exactly when no other colon comes
    before it and [d] does not start with a bracket.  [[::1]:8080] is
    left as it is. *)
Theorem C5_normalization :
  (forall domain d, withoutTrailingDot (ToLower domain) d ->
     (Contains d ":" = false -> normalizeDomain domain = d) /\
     (forall host port, d = host ++ ":" ++ port -> Contains port ":" = false ->
        (Contains host ":" = false -> HasPrefix d "[" = false ->
           normalizeDomain domain = host) /\
        (Contains host ":" = true \/ HasPrefix d "[" = true ->
           normalizeDomain domain = d))) /\
  (forall l, exists d, withoutTrailingDot l d) /\
  normalizeDomain "[::1]:8080" = "[::1]:8080" /\
  normalizeDomain "Example.COM.:8443" = "example.com." /\
  normalizeDomain "Example.COM:8443." = "example.com".
Proof.
  split; [|split; [|repeat split]].
  - intros domain d W. split; [now apply normalize_no_colon|].
    intros host port E C.
    rewrite (normalize_colon _ _ _ _ W E C). split.
    + now intros -> ->.
    + intros [->| ->]; [reflexivity|]. now rewrite andb_false_r.
  - intros l. destruct (HasSuffix l ".") eqn:E.
    + destruct (HasSuffix_byte_inv _ _ E) as [d ->]. exists d. now left.
    + exists l. now right.
Qed.

(** ** The classifier *)

Section Classifier.
Context {lib : GoLib}.

Lemma firstMatch_none (ps : list Regexp) (d : string) :
  noneMatches ps d -> firstMatch ps d = (None, ps).
Proof.
  induction ps as [|p ps IH]; intros N; [reflexivity|].
  cbn [firstMatch]. rewrite (N p (or_introl eq_refl)), IH; [reflexivity|].
  intros q Hq. apply N. now right.
Qed.

Lemma firstMatch_first (ps before rest : list Regexp) (p : Regexp) (d : string) :
  firstOf ps d before p rest -> firstMatch ps d = (Some p, (before ++ [p])%list).
Proof.
  intros (-> & N & M). induction before as [|q before IH]; cbn [firstMatch app].
  - now rewrite M.
  - rewrite (N q (or_introl eq_refl)), IH; [reflexivity|].
    intros r Hr. apply N. now right.
Qed.

(** A list with a matching pattern has a first one. *)
Lemma first_exists (ps : list Regexp) (d : string) :
  (exists q, In q ps /\ MatchString q d = true) ->
  exists before p rest, firstOf ps d before p rest.
Proof.
  induction ps as [|a ps IH]; intros (q & Hq & M); [destruct Hq|].
  destruct (MatchString a d) eqn:Ma.
  - exists [], a, ps. repeat split; [intros r []| exact Ma].
  - destruct Hq as [->|Hq]; [congruence|].
    destruct IH as (before & p & rest & -> & N & Mp); [now exists q|].
    exists (a :: before), p, rest. repeat split; [|exact Mp].
    intros r [<-|Hr]; [exact Ma | now apply N].
Qed.

Lemma normalizedDomain_Some (config : Config) (input d : string) :
  normalizedDomain config input = Some d ->
  exists raw, extractDomain config input = Some raw /\ normalizeDomain raw = d.
Proof.
  unfold normalizedDomain. destruct (extractDomain config input) as [raw|]; [|discriminate].
  intros [= <-]. now exists raw.
Qed.

(** The strict failure is the one way to have no domain. *)
Lemma extractDomain_None (config : Config) (input : string) :
  extractDomain config input = None <->
  strict config = true /\ isURL input = true /\ exists e, getHostname input = Err e.
Proof.
  unfold extractDomain. split.
  - destruct (isURL input); [|discriminate].
    destruct (getHostname input) as [h|e]; [discriminate|].
    destruct (strict config); [|discriminate].
    intros _. repeat split. now exists e.
  - intros (-> & -> & e & ->). reflexivity.
Qed.

(** An exclude pattern that matches decides the call. *)
Lemma inScope_excluded (config : Config) (s : scopeChecker) (input d : string)
    (before rest : list Regexp) (p : Regexp) :
  normalizedDomain config input = Some d ->
  firstOf (antipatterns s) d before p rest ->
  let o := inScope config s input in
  verdict o = false /\ matchedPattern o = "!" ++ re_String p /\
  excludesCalled o = (before ++ [p])%list /\
  stats (after o) = Stats.incOutScope (Stats.incTotal (stats s)).
Proof.
  intros D F. apply normalizedDomain_Some in D as (raw & E & <-).
  cbv zeta. unfold inScope. rewrite E.
  destruct (firstMatch (patterns s) (normalizeDomain raw)) as [incl icalls].
  rewrite (firstMatch_first _ _ _ _ _ F). repeat split.
Qed.

(** Without a matching exclude pattern, the include patterns decide. *)
Lemma inScope_included (config : Config) (s : scopeChecker) (input d : string)
    (before rest : list Regexp) (p : Regexp) :
  normalizedDomain config input = Some d ->
  firstOf (patterns s) d before p rest ->
  noneMatches (antipatterns s) d ->
  let o := inScope config s input in
  verdict o = true /\ matchedPattern o = re_String p /\
  includesCalled o = (before ++ [p])%list /\
  excludesCalled o = antipatterns s /\
  stats (after o) = Stats.incInScope (Stats.incTotal (stats s)).
Proof.
  intros D F N. apply normalizedDomain_Some in D as (raw & E & <-).
  cbv zeta. unfold inScope. rewrite E.
  rewrite (firstMatch_first _ _ _ _ _ F), (firstMatch_none _ _ N). repeat split.
Qed.

Lemma inScope_unmatched (config : Config) (s : scopeChecker) (input d : string) :
  normalizedDomain config input = Some d ->
  noneMatches (patterns s) d ->
  noneMatches (antipatterns s) d ->
  let o := inScope config s input in
  verdict o = false /\ matchedPattern o = "" /\
  includesCalled o = patterns s /\ excludesCalled o = antipatterns s /\
  stats (after o) = Stats.incOutScope (Stats.incTotal (stats s)).
Proof.
  intros D Ni Ne. apply normalizedDomain_Some in D as (raw & E & <-).
  cbv zeta. unfold inScope. rewrite E.
  rewrite (firstMatch_none _ _ Ni), (firstMatch_none _ _ Ne). repeat split.
Qed.

(** The include loop stops at its first match, whatever the exclude
    patterns do. *)
Lemma inScope_includesCalled (config : Config) (s : scopeChecker) (input d : string)
    (before rest : list Regexp) (p : Regexp) :
  normalizedDomain config input = Some d ->
  firstOf (patterns s) d before p rest ->
  includesCalled (inScope config s input) = (before ++ [p])%list.
Proof.
  intros D F. apply normalizedDomain_Some in D as (raw & E & <-).
  unfold inScope. rewrite E, (firstMatch_first _ _ _ _ _ F).
  destruct (firstMatch (antipatterns s) (normalizeDomain raw)) as [[q|] ecalls];
    reflexivity.
Qed.

(** The early return of line 59. *)
Lemma inScope_strict_failure (config : Config) (s : scopeChecker) (input : string) :
  extractDomain config input = None ->
  let o := inScope config s input in
  verdict o = false /\ matchedPattern o = "" /\
  includesCalled o = [] /\ excludesCalled o = [] /\
  stats (after o) = Stats.incTotal (stats s).
Proof. intros E. cbv zeta. unfold inScope. rewrite E. repeat split. Qed.

(** The patterns of a checker do not change. *)
Lemma inScope_patterns (config : Config) (s : scopeChecker) (input : string) :
  patterns (after (inScope config s input)) = patterns s /\
  antipatterns (after (inScope config s input)) = antipatterns s.
Proof.
  unfold inScope. destruct (extractDomain config input) as [raw|]; [|now split].
  destruct (firstMatch (patterns s) _) as [[p|] ?];
  destruct (firstMatch (antipatterns s) _) as [[q|] ?]; now split.
Qed.

End Classifier.

(** C1. When an exclude pattern accepts the normalized domain of the
    input, the call answers out of scope, the label is [!] followed by
    the text of the first exclude pattern that accepts it, and no
    exclude pattern after that one is tried; the include patterns have
    no say in it. *)
Theorem C1_exclusion_overrides (lib : GoLib) (config : Config)
    (s : scopeChecker) (input d : string) :
  normalizedDomain config input = Some d ->
  (exists q, In q (antipatterns s) /\ MatchString q d = true) ->
  exists before p rest,
    firstOf (antipatterns s) d before p rest /\
    verdict (inScope config s input) = false /\
    matchedPattern (inScope config s input) = "!" ++ re_String p /\
    excludesCalled (inScope config s input) = (before ++ [p])%list.
Proof.
  intros D X. destruct (first_exists _ _ X) as (before & p & rest & F).
  exists before, p, rest. split; [exact F|].
  destruct (inScope_excluded config s input d before rest p D F) as (V & L & C & _).
  now repeat split.
Qed.

(** [admin.example.com] is included by the first line and excluded by
    the second. *)
Lemma C1_exclusion_overrides_witness :
  let s := build ["*.example.com"; "!admin.example.com"; "!*.example.com"] in
  let input := "admin.example.com" in
  @normalizedDomain model defaultConfig input = Some "admin.example.com" /\
  (exists q, In q (antipatterns s) /\ @MatchString model q "admin.example.com" = true) /\
  (exists p, In p (patterns s) /\ @MatchString model p "admin.example.com" = true) /\
  exists before p rest,
    @firstOf model (antipatterns s) "admin.example.com" before p rest /\
    verdict (inScope defaultConfig s input) = false /\
    matchedPattern (inScope defaultConfig s input) = "!" ++ @re_String model p /\
    excludesCalled (inScope defaultConfig s input) = (before ++ [p])%list.
Proof.
  cbv zeta.
  assert (D : @normalizedDomain model defaultConfig "admin.example.com"
              = Some "admin.example.com") by reflexivity.
  assert (X : exists q,
             In q (antipatterns
                     (build ["*.example.com"; "!admin.example.com"; "!*.example.com"])) /\
             @MatchString model q "admin.example.com" = true).
  { eexists. split; [left; reflexivity | reflexivity]. }
  split; [exact D|]. split; [exact X|].
  split; [eexists; split; [left; reflexivity | reflexivity]|].
  exact (C1_exclusion_overrides model defaultConfig _ _ _ D X).
Defined.

(** What a call does to the counters.  When the call reaches the
    patterns, it counts the input and counts it once more as in scope
    or as out of scope. *)
Lemma inScope_counts (lib : GoLib) (config : Config) (s : scopeChecker)
    (input raw : string) :
  extractDomain config input = Some raw ->
  let o := inScope config s input in
  (verdict o = true /\ stats (after o) = Stats.incInScope (Stats.incTotal (stats s))) \/
  (verdict o = false /\ stats (after o) = Stats.incOutScope (Stats.incTotal (stats s))).
Proof.
  intros E. cbv zeta. unfold inScope. rewrite E.
  destruct (firstMatch (patterns s) _) as [[p|] ?];
  destruct (firstMatch (antipatterns s) _) as [[q|] ?]; cbn; auto.
Qed.

(** C2, where the code departs from it.  In strict mode an input whose
    host name cannot be extracted is counted in [total] and in neither
    of the two other counters: after the first such call [total] is 1
    and [inScope] and [outScope] are 0. *)
Theorem C2_strict_failure_is_not_counted :
  (forall (lib : GoLib) config s input,
     extractDomain config input = None ->
     stats (after (inScope config s input)) = Stats.incTotal (stats s)) /\
  (let s := build ["example.com"] in
   let o := inScope strictConfig s "not a valid url???" in
   isURL "not a valid url???" = true /\
   (exists e, @getHostname model "not a valid url???" = Err e) /\
   stats s = {| Stats.total := 0; Stats.inScope := 0; Stats.outScope := 0 |} /\
   verdict o = false /\
   stats (after o) = {| Stats.total := 1; Stats.inScope := 0; Stats.outScope := 0 |} /\
   Stats.total (stats (after o)) <>
     (Stats.inScope (stats (after o)) + Stats.outScope (stats (after o)))%Z).
Proof.
  split.
  - intros lib config s input E.
    now destruct (inScope_strict_failure config s input E) as (_ & _ & _ & _ & S).
  - cbv zeta. split; [reflexivity|]. split; [eexists; reflexivity|].
    repeat split. vm_compute. discriminate.
Qed.

(** C3, as the code has it.  In strict mode, when the host name of a
    URL-like input cannot be extracted, the call answers out of scope
    with an empty label, and neither an include nor an exclude pattern
    is tried. *)
Theorem C3_strict_failure (lib : GoLib) (config : Config) (s : scopeChecker)
    (input : string) (e : error) :
  strict config = true ->
  isURL input = true ->
  getHostname input = Err e ->
  verdict (inScope config s input) = false /\
  matchedPattern (inScope config s input) = "" /\
  includesCalled (inScope config s input) = [] /\
  excludesCalled (inScope config s input) = [].
Proof.
  intros S U H.
  assert (E : extractDomain config input = None).
  { apply extractDomain_None. repeat split; [exact S | exact U | now exists e]. }
  destruct (inScope_strict_failure config s input E) as (V & L & I & X & _).
  now repeat split.
Qed.

Lemma C3_strict_failure_witness :
  let s := build ["example.com"; "!*valid*"] in
  let o := inScope strictConfig s "not a valid url???" in
  verdict o = false /\ matchedPattern o = "" /\
  includesCalled o = [] /\ excludesCalled o = [].
Proof.
  cbv zeta.
  apply (C3_strict_failure model strictConfig _ "not a valid url???"
           (LibError "invalid character or escape in host name"));
    reflexivity.
Defined.

(** The input of the specification's example, in strict mode and with
    an exclude pattern that accepts it as it stands and normalized:
    the exclude pattern is not tried, and [outScope] stays at 0. *)
Lemma C3_counterexample :
  let s := build ["example.com"; "!*valid*"] in
  let input := "not a valid url???" in
  let o := inScope strictConfig s input in
  strict strictConfig = true /\ isURL input = true /\
  (exists e, @getHostname model input = Err e) /\
  (exists q, antipatterns s = [q] /\
     @MatchString model q input = true /\
     @MatchString model q (normalizeDomain input) = true) /\
  excludesCalled o = [] /\
  matchedPattern o = "" /\
  Stats.outScope (stats s) = 0%Z /\
  Stats.outScope (stats (after o)) = 0%Z.
Proof.
  cbv zeta. split; [reflexivity|]. split; [reflexivity|].
  split; [eexists; reflexivity|].
  split; [eexists; repeat split|].
  repeat split.
Qed.

(** ** The scope-file reader *)

Section Reader.
Context {lib : GoLib}.

(** Without an include line the list of include patterns stays empty. *)
Lemma scanLines_no_include (lines : list string) (lineNum : nat) (antis : list Regexp) :
  (forall text, In text lines -> includeLine text = false) ->
  (exists e, scanLines lines lineNum [] antis = Err e /\ configurationError e = true) \/
  (exists antis', scanLines lines lineNum [] antis = Ok ([], antis')).
Proof.
  revert lineNum antis. induction lines as [|text lines IH]; intros lineNum antis N.
  - right. now exists antis.
  - assert (Nt := N text (or_introl eq_refl)).
    assert (Nl : forall t, In t lines -> includeLine t = false)
      by (intros t Ht; apply N; now right).
    unfold includeLine in Nt. apply negb_false_iff in Nt.
    cbn [scanLines].
    destruct (String.eqb (TrimSpace text) "" || HasPrefix (TrimSpace text) "#") eqn:Skip.
    + apply IH, Nl.
    + simpl in Nt. rewrite Nt.
      destruct (regexp_Compile _) as [re|e].
      * apply IH, Nl.
      * left. eexists. split; reflexivity.
Qed.

End Reader.

(** C6. A scope file whose lines are all blank, comments or exclude
    lines yields no checker but an error; when the lines were read
    without a read error, it is a configuration error. *)
Theorem C6_no_include_pattern (lib : GoLib) (lines : list string)
    (scanErr : option error) :
  (forall text, In text lines -> includeLine text = false) ->
  exists e, newScopeChecker lines scanErr = Err e /\
            (scanErr = None -> configurationError e = true).
Proof.
  intros N. unfold newScopeChecker.
  destruct (scanLines_no_include lines 0 [] N) as [(e & -> & C)|(antis & ->)].
  - now exists e.
  - destruct scanErr as [r|].
    + exists (ReadError r). split; [reflexivity | discriminate].
    + exists NoPatterns. now split.
Qed.

Lemma C6_no_include_pattern_witness :
  (forall text, In text ["# nothing in scope"; "  "; "!evil.com"] ->
     includeLine text = false) /\
  exists e, @newScopeChecker model ["# nothing in scope"; "  "; "!evil.com"] None = Err e /\
            (@None error = None -> configurationError e = true).
Proof.
  assert (N : forall text, In text ["# nothing in scope"; "  "; "!evil.com"] ->
                includeLine text = false).
  { intros text [<-|[<-|[<-|[]]]]; reflexivity. }
  split; [exact N|].
  exact (C6_no_include_pattern model _ None N).
Defined.

(** C7. The label is empty when no pattern has matched: when the call
    ends before the patterns, and when neither an include nor an
    exclude pattern accepts the normalized domain.  When the include
    patterns decide, the label is the text of the first of them, in the
    order of the scope file, that accepts the normalized domain; the
    include patterns after it are not tried, and the label does not
    depend on them. *)
Theorem C7_matched_label (lib : GoLib) (config : Config) (s : scopeChecker)
    (input : string) :
  (normalizedDomain config input = None ->
     matchedPattern (inScope config s input) = "" /\
     includesCalled (inScope config s input) = [] /\
     excludesCalled (inScope config s input) = []) /\
  (forall d, normalizedDomain config input = Some d ->
     (noneMatches (patterns s) d -> noneMatches (antipatterns s) d ->
        verdict (inScope config s input) = false /\
        matchedPattern (inScope config s input) = "") /\
     (forall before p rest, firstOf (patterns s) d before p rest ->
        includesCalled (inScope config s input) = (before ++ [p])%list /\
        (noneMatches (antipatterns s) d ->
           verdict (inScope config s input) = true /\
           matchedPattern (inScope config s input) = re_String p) /\
        (forall rest' : list Regexp,
           let s' := {| patterns := (before ++ p :: rest')%list;
                        antipatterns := antipatterns s; stats := stats s |} in
           matchedPattern (inScope config s' input) =
           matchedPattern (inScope config s input)))).
Proof.
  split.
  - intros D.
    assert (E : extractDomain config input = None).
    { unfold normalizedDomain in D. now destruct (extractDomain config input). }
    now destruct (inScope_strict_failure config s input E) as (_ & L & I & X & _).
  - intros d D. split.
    + intros Ni Ne.
      now destruct (inScope_unmatched config s input d D Ni Ne) as (V & L & _).
    + intros before p rest F. split; [|split].
      * exact (inScope_includesCalled config s input d before rest p D F).
      * intros Ne.
        now destruct (inScope_included config s input d before rest p D F Ne)
          as (V & L & _).
      * intros rest'. cbv zeta.
        apply normalizedDomain_Some in D as (raw & E & <-).
        destruct F as (P & N & M).
        unfold inScope. rewrite E. cbn [patterns antipatterns stats].
        rewrite (firstMatch_first (before ++ p :: rest') before rest' p _
                   (conj eq_refl (conj N M))).
        rewrite (firstMatch_first (patterns s) before rest p _ (conj P (conj N M))).
        destruct (firstMatch (antipatterns s) (normalizeDomain raw)) as [[q|] ?];
          reflexivity.
Qed.

(** ** URL-likeness and host names *)

Section Resolver.

Lemma prefix_cons (a b : ascii) (s1 s2 : string) :
  String.prefix (String a s1) (String b s2) = Ascii.eqb a b && String.prefix s1 s2.
Proof.
  simpl. destruct (ascii_dec a b) as [->|ne].
  - now rewrite Ascii.eqb_refl.
  - apply Ascii.eqb_neq in ne. now rewrite ne.
Qed.

(** Lowering the case moves no byte onto or away from [:], [/], [?]
    and [#], and keeps white space white space. *)
Lemma lower_separators (c : ascii) :
  isSpace (lower c) = isSpace c /\
  forall d, mem d ":/?#" = true -> Ascii.eqb d (lower c) = Ascii.eqb d c.
Proof.
  split.
  - destruct c as [[] [] [] [] [] [] [] []]; reflexivity.
  - intros d M. simpl in M.
    repeat (apply orb_prop in M as [M|M];
            [apply Ascii.eqb_eq in M; subst d;
             destruct c as [[] [] [] [] [] [] [] []]; reflexivity|]).
    discriminate.
Qed.

Lemma HasPrefix_ToLower (sep s : string) :
  separators sep -> HasPrefix (ToLower s) sep = HasPrefix s sep.
Proof.
  unfold HasPrefix. revert s. induction sep as [|d sep IH]; intros s F.
  - now rewrite !prefix_nil.
  - destruct s as [|c s]; [reflexivity|].
    cbn [ToLower]. rewrite !prefix_cons.
    rewrite (proj2 (lower_separators c) d).
    + f_equal. apply IH. intros x Hx. apply F. simpl. now rewrite Hx, orb_true_r.
    + apply F. simpl. now rewrite Ascii.eqb_refl.
Qed.

Lemma Contains_ToLower (sep s : string) :
  separators sep -> Contains (ToLower s) sep = Contains s sep.
Proof.
  intros F. induction s as [|c s IH].
  - reflexivity.
  - cbn [Contains]. change (ToLower (String c s)) with (String (lower c) (ToLower s)).
    cbn [Contains]. rewrite IH. f_equal.
    exact (HasPrefix_ToLower sep (String c s) F).
Qed.

Lemma TrimLeft_ToLower (s : string) : TrimLeft (ToLower s) = ToLower (TrimLeft s).
Proof.
  induction s as [|c s IH]; [reflexivity|].
  cbn [ToLower TrimLeft]. rewrite (proj1 (lower_separators c)).
  destruct (isSpace c); [exact IH | reflexivity].
Qed.

Lemma TrimRight_ToLower (s : string) : TrimRight (ToLower s) = ToLower (TrimRight s).
Proof.
  induction s as [|c s IH]; [reflexivity|].
  cbn [ToLower TrimRight]. rewrite IH, (proj1 (lower_separators c)).
  destruct (TrimRight s) as [|x r]; cbn [ToLower]; [|reflexivity].
  destruct (isSpace c); reflexivity.
Qed.

Lemma TrimSpace_ToLower (s : string) : TrimSpace (ToLower s) = ToLower (TrimSpace s).
Proof. unfold TrimSpace. now rewrite TrimLeft_ToLower, TrimRight_ToLower. Qed.

Lemma separators_literal (sep : string) :
  (forallb (fun d => mem d ":/?#") (list_ascii_of_string sep)) = true ->
  separators sep.
Proof.
  induction sep as [|c sep IH]; intros A d M; [discriminate|].
  simpl in A. apply andb_prop in A as [Ac As].
  simpl in M. apply orb_prop in M as [M|M].
  - apply Ascii.eqb_eq in M. now subst d.
  - now apply IH.
Qed.

(** [isURL] in terms of the input with its surrounding white space
    taken off. *)
Lemma isURL_trimmed (s : string) :
  isURL s =
  let t := TrimSpace s in
  Contains t "://" || HasPrefix (ToLower t) "http:" || HasPrefix (ToLower t) "https:"
  || HasPrefix (ToLower t) "ftp:" || HasPrefix (ToLower t) "ws:"
  || HasPrefix (ToLower t) "wss:"
  || Contains t "/" || Contains t "?" || Contains t "#".
Proof.
  unfold isURL. cbv zeta. rewrite TrimSpace_ToLower.
  rewrite !Contains_ToLower by (apply separators_literal; reflexivity).
  reflexivity.
Qed.

Context {lib : GoLib}.



End Resolver.



(** ** The matcher of the regexp model *)

Module RegexpFacts.
Import GoRegexp.

Lemma isEmpty_snoc (pre : string) (c : ascii) : isEmpty (pre ++ String c "") = false.
Proof. now destruct pre. Qed.

Lemma isEmpty_true (pre : string) : isEmpty pre = true -> pre = "".
Proof. now destruct pre. Qed.

(** Every match of the relation is found by [matchhere]. *)
Lemma matchhere_complete (r : list item) (pre mid post : string) :
  Span r pre mid post -> matchhere r (isEmpty pre) (mid ++ post) = true.
Proof.
  induction 1 as [pre post | r mid post _ IH | r pre _ IH
                  | a c r pre mid post A _ IH | a r pre mid post _ IH
                  | a c r pre mid post A _ IH].
  - reflexivity.
  - exact IH.
  - exact IH.
  - cbn [matchhere append]. rewrite A. now rewrite isEmpty_snoc in IH.
  - cbn [matchhere]. destruct (mid ++ post); cbn [matchstar]; now rewrite IH.
  - cbn [matchhere append matchstar]. rewrite A.
    rewrite isEmpty_snoc in IH. cbn [matchhere] in IH. rewrite IH.
    apply orb_true_r.
Qed.

(** What [matchstar] finds, given what its continuation finds. *)
Lemma matchstar_sound (a : atom) (r : list item) :
  (forall pre s, matchhere r (isEmpty pre) s = true ->
     exists mid post, s = mid ++ post /\ Span r pre mid post) ->
  forall s pre, matchstar (matchhere r) a (isEmpty pre) s = true ->
    exists mid post, s = mid ++ post /\ Span (Many a :: r) pre mid post.
Proof.
  intros K. induction s as [|c t IH]; intros pre M; cbn [matchstar] in M.
  - rewrite orb_false_r in M. destruct (K _ _ M) as (mid & post & E & S).
    exists mid, post. split; [exact E | now apply span_many_stop].
  - apply orb_prop in M as [M|M].
    + destruct (K _ _ M) as (mid & post & E & S).
      exists mid, post. split; [exact E | now apply span_many_stop].
    + apply andb_prop in M as [A M]. rewrite <- (isEmpty_snoc pre c) in M.
      destruct (IH _ M) as (mid & post & -> & S).
      exists (String c mid), post. split; [reflexivity | now apply span_many_step].
Qed.

(** Whatever [matchhere] finds is a match of the relation. *)
Lemma matchhere_sound (r : list item) (pre s : string) :
  matchhere r (isEmpty pre) s = true ->
  exists mid post, s = mid ++ post /\ Span r pre mid post.
Proof.
  revert pre s. induction r as [|[a|a| |] r IH]; intros pre s M.
  - exists "", s. split; [reflexivity | constructor].
  - destruct s as [|c t]; cbn [matchhere] in M; [discriminate|].
    apply andb_prop in M as [A M]. rewrite <- (isEmpty_snoc pre c) in M.
    destruct (IH _ _ M) as (mid & post & -> & S).
    exists (String c mid), post. split; [reflexivity | now apply span_one].
  - cbn [matchhere] in M. exact (matchstar_sound a r IH s pre M).
  - cbn [matchhere] in M. apply andb_prop in M as [E M].
    apply isEmpty_true in E. subst pre.
    destruct (IH "" s M) as (mid & post & -> & S).
    exists mid, post. split; [reflexivity | now apply span_bol].
  - destruct s as [|c t]; cbn [matchhere] in M; [|discriminate].
    destruct (IH pre "" M) as (mid & post & E & S).
    destruct mid; [|discriminate]. destruct post; [|discriminate].
    exists "", "". split; [reflexivity | now apply span_eol].
Qed.



End RegexpFacts.

(** ** Wildcard lines on the regexp model *)

Module WildcardFacts.
Import GoRegexp RegexpFacts.

Lemma emit_Some (its r : list item) : emit its (Some r) = Some (its ++ r)%list.
Proof. reflexivity. Qed.

(** The pattern of a wildcard line parses into the items of the line,
    between the two anchors. *)
Lemma parse_expand (line : string) (pending : option atom) :
  ContainsAny line metacharacters = false ->
  parse_from pending false (expand line ++ "$") =
  Some (flush pending ++ globItems line ++ [Eol])%list.
Proof.
  revert pending. induction line as [|c line IH]; intros pending M.
  - cbn. now rewrite app_nil_r.
  - cbn [ContainsAny] in M. apply orb_false_iff in M as [Mc Ml].
    cbn [expand globItems]. unfold expandByte, globItem.
    destruct (Ascii.eqb_spec c ".") as [->|Ndot].
    + cbn [append parse_from]. cbn [Ascii.eqb Bool.eqb andb escapable].
      change (escapable ".") with true. cbv iota.
      rewrite (IH _ Ml). rewrite emit_Some. reflexivity.
    + destruct (Ascii.eqb_spec c "*") as [->|Nstar].
      * cbn [append parse_from]. change (Ascii.eqb "." "\") with false.
        change (Ascii.eqb "." "*") with false. change (Ascii.eqb "." "^") with false.
        change (Ascii.eqb "." "$") with false. change (Ascii.eqb "." ".") with true.
        change (Ascii.eqb "*" "\") with false. change (Ascii.eqb "*" "*") with true.
        cbv iota. rewrite (IH _ Ml). rewrite !emit_Some. reflexivity.
      * cbn [append parse_from].
        unfold metacharacters in Mc. cbn [mem] in Mc.
        repeat (apply orb_false_iff in Mc as [?E Mc]).
        apply Ascii.eqb_neq in Ndot, Nstar.
        rewrite E10, Nstar, E, E0, Ndot. cbn [mem].
        rewrite E1, E2, E3, E4, E5, E6, E7, E8, E9. cbn [orb].
        rewrite (IH _ Ml). rewrite !emit_Some. reflexivity.
Qed.

Lemma parse_wildcard (line : string) :
  ContainsAny line metacharacters = false ->
  parse (convertWildcardToRegex line) = Some (Bol :: globItems line ++ [Eol])%list.
Proof.
  intros M. rewrite (convert_wildcard line M). unfold parse.
  change ("^" ++ expand line ++ "$") with (String "^" (expand line ++ "$")).
  cbn [parse_from]. change (Ascii.eqb "^" "\") with false.
  change (Ascii.eqb "^" "*") with false. change (Ascii.eqb "^" "^") with true.
  cbv iota. rewrite (parse_expand line None M). reflexivity.
Qed.

(** A run taken by [.*], then the rest. *)
Lemma Span_many_inv (a : atom) (r : list item) (pre mid post : string) :
  Span (Many a :: r) pre mid post ->
  exists run rest, mid = run ++ rest /\
    (forall c, mem c run = true -> accepts a c = true) /\
    Span r (pre ++ run) rest post.
Proof.
  intros S. remember (Many a :: r) as R eqn:ER.
  induction S as [ | | | | a' r' pre mid post S _
                  | a' c r' pre mid post A S IH]; try discriminate.
  - injection ER as -> ->. exists "", mid. split; [reflexivity|].
    split; [discriminate | now rewrite append_nil_r].
  - injection ER as -> ->. destruct (IH eq_refl) as (run & rest & -> & All & S').
    exists (String c run), rest. split; [reflexivity|]. split.
    + intros x Hx. simpl in Hx. apply orb_prop in Hx as [Hx|Hx].
      * apply Ascii.eqb_eq in Hx. now subst x.
      * now apply All.
    + now rewrite append_assoc in S'.
Qed.

Lemma Glob_star_run (run line d : string) :
  (forall c, mem c run = true -> accepts AnyChar c = true) ->
  Glob line d -> Glob (String "*" line) (run ++ d).
Proof.
  induction run as [|x run IH]; intros All G.
  - now apply glob_star_stop.
  - cbn [append]. apply glob_star_step.
    + assert (A := All x). simpl in A. rewrite Ascii.eqb_refl in A.
      specialize (A eq_refl). apply negb_true_iff in A.
      now apply Ascii.eqb_neq in A.
    + apply IH; [|exact G]. intros c Hc. apply All. simpl. now rewrite Hc, orb_true_r.
Qed.

(** The items of a line, followed by the end anchor, match the
    texts of the wildcard reading, up to the end of the text. *)
Lemma Span_glob (line pre mid post : string) :
  Span (globItems line ++ [Eol]) pre mid post -> post = "" /\ Glob line mid.
Proof.
  revert pre mid. induction line as [|c line IH]; intros pre mid S.
  - cbn in S. inversion S; subst. split; [reflexivity | constructor].
  - cbn [globItems app] in S. unfold globItem in S.
    destruct (Ascii.eqb_spec c "*") as [->|N].
    + apply Span_many_inv in S as (run & rest & -> & All & S).
      destruct (IH _ _ S) as (-> & G). split; [reflexivity|].
      now apply Glob_star_run.
    + inversion S as [ | | | a x r p m q A S' | | ]; subst.
      simpl in A. apply Ascii.eqb_eq in A. subst x.
      destruct (IH _ _ S') as (-> & G). split; [reflexivity|].
      now apply glob_char.
Qed.

Lemma glob_Span (line d : string) :
  Glob line d -> forall pre, Span (globItems line ++ [Eol]) pre d "".
Proof.
  induction 1 as [ | c line d N _ IH | line d _ IH | c line d N _ IH]; intros pre.
  - cbn. apply span_eol. constructor.
  - cbn [globItems app]. unfold globItem.
    apply Ascii.eqb_neq in N. rewrite N.
    apply span_one; [simpl; apply Ascii.eqb_refl | apply IH].
  - cbn [globItems app]. apply span_many_stop, IH.
  - apply span_many_step; [|apply IH].
    simpl. apply negb_true_iff. now apply Ascii.eqb_neq.
Qed.

(** With the start anchor in front, a match begins at the start. *)
Lemma search_Bol (r : list item) (s : string) :
  search (Bol :: r) false s = false.
Proof. induction s as [|c t IH]; cbn [search matchhere andb orb]; [reflexivity | exact IH]. Qed.

Lemma search_anchored (r : list item) (s : string) :
  search (Bol :: r) true s = matchhere r true s.
Proof.
  destruct s as [|c t]; cbn [search matchhere andb].
  - apply orb_false_r.
  - now rewrite search_Bol, orb_false_r.
Qed.

(** A wildcard line accepts exactly the domains that it matches as a
    whole. *)
Lemma wildcard_matches_whole (line : string) :
  ContainsAny line metacharacters = false ->
  exists re, Compile (convertWildcardToRegex line) = Ok re /\
    forall d, MatchString re d = true <-> Glob line d.
Proof.
  intros M. unfold Compile. rewrite (parse_wildcard line M).
  eexists. split; [reflexivity|]. intros d.
  unfold MatchString. cbn [prog]. rewrite search_anchored. split.
  - intros H. destruct (matchhere_sound _ "" _ H) as (mid & post & -> & S).
    destruct (Span_glob _ _ _ _ S) as (-> & G). now rewrite append_nil_r.
  - intros G. rewrite <- (append_nil_r d).
    exact (matchhere_complete _ "" d "" (glob_Span _ _ G "")).
Qed.

End WildcardFacts.


(** ** The examples of the specification, evaluated on the models *)

Section Examples.

(** The first include pattern that matches gives the label; the ones
    after it are not tried. *)
Example first_include_wins :
  classify defaultConfig ["*.org"; "*.example.com"; "foo.*"; "!admin.*"] "foo.example.com"
  = Some (true, "^.*\.example\.com$", (1, 1, 0)%Z,
          ["^.*\.org$"; "^.*\.example\.com$"], ["^admin\..*$"]).
Proof. reflexivity. Qed.

(** A dot of a wildcard line is a dot. *)
Example dot_is_literal :
  classify defaultConfig ["example.com"] "example.com"
  = Some (true, "^example\.com$", (1, 1, 0)%Z, ["^example\.com$"], []) /\
  classify defaultConfig ["example.com"] "exampleXcom"
  = Some (false, "", (1, 0, 1)%Z, ["^example\.com$"], []).
Proof. split; reflexivity. Qed.

(** The host name is taken out of a URL, lowered, and matched. *)
Example url_round_trip :
  @getHostname model "HTTPS://Example.COM:8443/path" = Ok "Example.COM" /\
  normalizeDomain "Example.COM" = "example.com" /\
  classify defaultConfig ["example.com"] "HTTPS://Example.COM:8443/path"
  = Some (true, "^example\.com$", (1, 1, 0)%Z, ["^example\.com$"], []).
Proof. repeat split. Qed.

(** Without the strict flag the input itself stands in for the host
    name that could not be extracted. *)
Example lenient_failure :
  classify defaultConfig ["example.com"; "!*valid*"] "not a valid url???"
  = Some (false, "!^.*valid.*$", (1, 0, 1)%Z, ["^example\.com$"], ["^.*valid.*$"]).
Proof. reflexivity. Qed.

(** Two calls on the same input give the same answer and count twice. *)
Example classified_twice :
  let s0 := build ["*.example.com"] in
  let o1 := inScope defaultConfig s0 "a.example.com" in
  let o2 := inScope defaultConfig (after o1) "a.example.com" in
  verdict o1 = verdict o2 /\ matchedPattern o1 = matchedPattern o2 /\
  Stats.total (stats (after o1)) = 1%Z /\ Stats.total (stats (after o2)) = 2%Z.
Proof. cbv zeta. repeat split. Qed.

End Examples.

(** * Further properties of the program *)

(** ** The classifier, continued *)

Section Verdicts.
Context {lib : GoLib}.

(** What [firstMatch] returns. *)
Lemma firstMatch_cases (ps : list Regexp) (d : string) :
  (noneMatches ps d /\ firstMatch ps d = (None, ps)) \/
  (exists before p rest,
     firstOf ps d before p rest /\ firstMatch ps d = (Some p, (before ++ [p])%list)).
Proof.
  induction ps as [|a ps IH].
  - left. split; [intros q [] | reflexivity].
  - destruct (MatchString a d) eqn:Ma.
    + right. exists [], a, ps. split.
      * repeat split; [intros q [] | exact Ma].
      * cbn [firstMatch]. now rewrite Ma.
    + destruct IH as [(N & E)|(before & p & rest & (-> & N & M) & E)].
      * left. split.
        -- intros q [<-|Hq]; [exact Ma | now apply N].
        -- cbn [firstMatch]. now rewrite Ma, E.
      * right. exists (a :: before), p, rest. split.
        -- repeat split; [|exact M]. intros q [<-|Hq]; [exact Ma | now apply N].
        -- cbn [firstMatch]. now rewrite Ma, E.
Qed.

Lemma firstOf_matches (ps before rest : list Regexp) (p : Regexp) (d : string) :
  firstOf ps d before p rest -> exists q, In q ps /\ MatchString q d = true.
Proof.
  intros (-> & _ & M). exists p. split; [|exact M].
  apply in_or_app. right. now left.
Qed.

Lemma noneMatches_not (ps : list Regexp) (d : string) :
  noneMatches ps d -> ~ exists q, In q ps /\ MatchString q d = true.
Proof. intros N (q & Hq & M). rewrite (N q Hq) in M. discriminate. Qed.

(** The verdict on a domain that reaches the patterns. *)
Lemma verdict_spec (config : Config) (s : scopeChecker) (input d : string) :
  normalizedDomain config input = Some d ->
  verdict (inScope config s input) = true <->
  (exists p, In p (patterns s) /\ MatchString p d = true) /\
  noneMatches (antipatterns s) d.
Proof.
  intros D.
  destruct (firstMatch_cases (antipatterns s) d) as [(Ne & _)|(b & q & r & Fe & _)].
  - destruct (firstMatch_cases (patterns s) d) as [(Ni & _)|(b & p & r & Fi & _)].
    + destruct (inScope_unmatched config s input d D Ni Ne) as (V & _).
      rewrite V. split; [discriminate|]. intros (X & _).
      now apply noneMatches_not in Ni.
    + destruct (inScope_included config s input d b r p D Fi Ne) as (V & _).
      rewrite V. split; [|reflexivity]. intros _. split; [|exact Ne].
      exact (firstOf_matches _ _ _ _ _ Fi).
  - destruct (inScope_excluded config s input d b r q D Fe) as (V & _).
    rewrite V. split; [discriminate|]. intros (_ & Ne).
    apply firstOf_matches in Fe. now apply noneMatches_not in Ne.
Qed.

(** Without the strict flag every input has a domain. *)
Lemma lenient_domain (config : Config) (input : string) :
  strict config = false -> exists raw, extractDomain config input = Some raw.
Proof.
  intros S. unfold extractDomain. rewrite S.
  destruct (isURL input); [destruct (getHostname input) as [h|e]|]; eauto.
Qed.

(** The answer depends on the patterns of the checker only. *)
Lemma inScope_answer_ext (config : Config) (s s' : scopeChecker) (input : string) :
  patterns s' = patterns s -> antipatterns s' = antipatterns s ->
  verdict (inScope config s' input) = verdict (inScope config s input) /\
  matchedPattern (inScope config s' input) = matchedPattern (inScope config s input) /\
  includesCalled (inScope config s' input) = includesCalled (inScope config s input) /\
  excludesCalled (inScope config s' input) = excludesCalled (inScope config s input).
Proof.
  intros P A. unfold inScope. rewrite P, A.
  destruct (extractDomain config input) as [raw|]; [|now repeat split].
  destruct (firstMatch (patterns s) _) as [[p|] ?];
  destruct (firstMatch (antipatterns s) _) as [[q|] ?]; now repeat split.
Qed.

Lemma verdict_bool (b b' : bool) : (b' = true -> b = true) -> (b = true -> b' = true) -> b' = b.
Proof. destruct b, b'; intuition congruence. Qed.

(** Fewer include patterns and more exclude patterns put no input in
    scope that was not in scope before. *)
Lemma verdict_monotone (config : Config) (s s' : scopeChecker) (input : string) :
  incl (patterns s') (patterns s) -> incl (antipatterns s) (antipatterns s') ->
  verdict (inScope config s' input) = true -> verdict (inScope config s input) = true.
Proof.
  intros I X V.
  destruct (normalizedDomain config input) as [d|] eqn:D.
  - destruct (proj1 (verdict_spec config s' input d D) V) as ((p & Hp & M) & N).
    apply (verdict_spec config s input d D). split.
    + exists p. split; [now apply I | exact M].
    + intros q Hq. apply N. now apply X.
  - assert (E : extractDomain config input = None).
    { unfold normalizedDomain in D. now destruct (extractDomain config input). }
    destruct (inScope_strict_failure config s' input E) as (V' & _).
    rewrite V' in V. discriminate.
Qed.

End Verdicts.

(** X1. For an input whose domain reaches the patterns, the answer
    is in scope exactly when some include pattern accepts the
    normalized domain and no exclude pattern does. *)
Theorem inScope_verdict (lib : GoLib) (config : Config) (s : scopeChecker)
    (input d : string) :
  normalizedDomain config input = Some d ->
  verdict (inScope config s input) = true <->
  (exists p, In p (patterns s) /\ MatchString p d = true) /\
  (forall q, In q (antipatterns s) -> MatchString q d = false).
Proof. exact (verdict_spec config s input d). Qed.

Lemma inScope_verdict_witness :
  @normalizedDomain model defaultConfig "API.example.com:443" = Some "api.example.com" /\
  (verdict (inScope defaultConfig (build ["*.example.com"; "!admin.*"])
              "API.example.com:443") = true <->
   (exists p, In p (patterns (build ["*.example.com"; "!admin.*"])) /\
              @MatchString model p "api.example.com" = true) /\
   (forall q, In q (antipatterns (build ["*.example.com"; "!admin.*"])) ->
              @MatchString model q "api.example.com" = false)).
Proof.
  split; [reflexivity|].
  apply (inScope_verdict model defaultConfig _ "API.example.com:443" "api.example.com").
  reflexivity.
Defined.

(** X2. Without the strict flag a call adds one to [total] and one to
    exactly one of the two other counters: to [inScope] when it answers
    in scope, to [outScope] otherwise. *)
Theorem inScope_lenient_counts (lib : GoLib) (config : Config) (s : scopeChecker)
    (input : string) :
  strict config = false ->
  stats (after (inScope config s input)) =
  (if verdict (inScope config s input) then Stats.incInScope else Stats.incOutScope)
    (Stats.incTotal (stats s)).
Proof.
  intros S. destruct (lenient_domain config input S) as (raw & E).
  destruct (inScope_counts lib config s input raw E) as [(V & C)|(V & C)];
    now rewrite V, C.
Qed.

Lemma inScope_lenient_counts_witness :
  strict defaultConfig = false /\
  stats (after (inScope defaultConfig (build ["example.com"]) "not a valid url???")) =
  (if verdict (inScope defaultConfig (build ["example.com"]) "not a valid url???")
   then Stats.incInScope else Stats.incOutScope)
    (Stats.incTotal (stats (build ["example.com"]))).
Proof.
  split; [reflexivity|].
  apply (inScope_lenient_counts model defaultConfig); reflexivity.
Defined.

(** X3. The answer for an input does not depend on the calls made
    before: after any other call the verdict, the label and the
    patterns tried are the same. *)
Theorem inScope_history_independent (lib : GoLib) (config : Config)
    (s : scopeChecker) (earlier input : string) :
  let s' := after (inScope config s earlier) in
  verdict (inScope config s' input) = verdict (inScope config s input) /\
  matchedPattern (inScope config s' input) = matchedPattern (inScope config s input) /\
  includesCalled (inScope config s' input) = includesCalled (inScope config s input) /\
  excludesCalled (inScope config s' input) = excludesCalled (inScope config s input).
Proof.
  cbv zeta. destruct (inScope_patterns config s earlier) as (P & A).
  now apply inScope_answer_ext.
Qed.

(** X4. Taking include patterns away or adding exclude patterns never
    brings an input into scope. *)
Theorem inScope_monotone (lib : GoLib) (config : Config) (s s' : scopeChecker)
    (input : string) :
  incl (patterns s') (patterns s) -> incl (antipatterns s) (antipatterns s') ->
  verdict (inScope config s' input) = true -> verdict (inScope config s input) = true.
Proof. exact (verdict_monotone config s s' input). Qed.

Lemma inScope_monotone_witness :
  let s := build ["*.example.com"; "*.org"; "!admin.*"] in
  let s' := build ["*.example.com"; "!admin.*"; "!dev.*"] in
  incl (patterns s') (patterns s) /\ incl (antipatterns s) (antipatterns s') /\
  verdict (inScope defaultConfig s' "www.example.com") = true /\
  verdict (inScope defaultConfig s "www.example.com") = true.
Proof.
  cbv zeta.
  assert (I : incl (patterns (build ["*.example.com"; "!admin.*"; "!dev.*"]))
                   (patterns (build ["*.example.com"; "*.org"; "!admin.*"]))).
  { intros p [<-|[]]. left. reflexivity. }
  assert (X : incl (antipatterns (build ["*.example.com"; "*.org"; "!admin.*"]))
                   (antipatterns (build ["*.example.com"; "!admin.*"; "!dev.*"]))).
  { intros p [<-|[]]. left. reflexivity. }
  assert (V : verdict (inScope defaultConfig
                         (build ["*.example.com"; "!admin.*"; "!dev.*"])
                         "www.example.com") = true) by reflexivity.
  split; [exact I|]. split; [exact X|]. split; [exact V|].
  exact (inScope_monotone model defaultConfig _ _ "www.example.com" I X V).
Defined.

(** X5. The verdict depends on which patterns are in the two lists,
    not on their order or on repetitions. *)
Theorem inScope_order_irrelevant (lib : GoLib) (config : Config)
    (s s' : scopeChecker) (input : string) :
  (forall p, In p (patterns s) <-> In p (patterns s')) ->
  (forall p, In p (antipatterns s) <-> In p (antipatterns s')) ->
  verdict (inScope config s' input) = verdict (inScope config s input).
Proof.
  intros I X. apply verdict_bool.
  - apply verdict_monotone; intros p Hp; [now apply I | now apply X].
  - apply verdict_monotone; intros p Hp; [now apply I | now apply X].
Qed.

Lemma inScope_order_irrelevant_witness :
  let s := build ["*.example.com"; "*.org"; "!admin.*"; "!dev.*"] in
  let s' := build ["*.org"; "*.example.com"; "!dev.*"; "!admin.*"; "!dev.*"] in
  (forall p, In p (patterns s) <-> In p (patterns s')) /\
  (forall p, In p (antipatterns s) <-> In p (antipatterns s')) /\
  verdict (inScope defaultConfig s' "dev.example.com") =
  verdict (inScope defaultConfig s "dev.example.com").
Proof.
  cbv zeta.
  assert (I : forall p,
             In p (patterns (build ["*.example.com"; "*.org"; "!admin.*"; "!dev.*"])) <->
             In p (patterns (build ["*.org"; "*.example.com"; "!dev.*"; "!admin.*";
                                    "!dev.*"]))).
  { intros p. split; intros [<-|[<-|[]]]; simpl; auto. }
  assert (X : forall p,
             In p (antipatterns (build ["*.example.com"; "*.org"; "!admin.*"; "!dev.*"])) <->
             In p (antipatterns (build ["*.org"; "*.example.com"; "!dev.*"; "!admin.*";
                                        "!dev.*"]))).
  { intros p. split; [intros [<-|[<-|[]]] | intros [<-|[<-|[<-|[]]]]]; simpl; auto. }
  split; [exact I|]. split; [exact X|].
  exact (inScope_order_irrelevant model defaultConfig _ _ "dev.example.com" I X).
Defined.

(** ** White space and case *)

Section Trimming.

Lemma TrimRight_idem (s : string) : TrimRight (TrimRight s) = TrimRight s.
Proof.
  induction s as [|c t IH]; [reflexivity|].
  cbn [TrimRight]. destruct (TrimRight t) as [|x r] eqn:R.
  - destruct (isSpace c) eqn:Sc; [reflexivity|]. cbn [TrimRight]. now rewrite Sc.
  - cbn [TrimRight]. cbn [TrimRight] in IH. now rewrite IH.
Qed.

(** A string that does not begin with white space. *)
Lemma TrimLeft_head (s : string) :
  match TrimLeft s with
  | EmptyString => True
  | String c _ => isSpace c = false
  end.
Proof.
  induction s as [|c t IH]; [exact I|].
  cbn [TrimLeft]. destruct (isSpace c) eqn:Sc; [exact IH | exact Sc].
Qed.

Lemma TrimLeft_TrimRight (s : string) :
  match s with
  | EmptyString => True
  | String c _ => isSpace c = false
  end ->
  TrimLeft (TrimRight s) = TrimRight s.
Proof.
  destruct s as [|c t]; [reflexivity|]. intros Sc.
  cbn [TrimRight]. destruct (TrimRight t); [rewrite Sc|]; cbn [TrimLeft]; now rewrite Sc.
Qed.

Lemma TrimSpace_idem (s : string) : TrimSpace (TrimSpace s) = TrimSpace s.
Proof.
  unfold TrimSpace. rewrite (TrimLeft_TrimRight _ (TrimLeft_head s)).
  apply TrimRight_idem.
Qed.

Lemma lower_idem (c : ascii) : lower (lower c) = lower c.
Proof. destruct c as [[] [] [] [] [] [] [] []]; reflexivity. Qed.

Lemma ToLower_idem (s : string) : ToLower (ToLower s) = ToLower s.
Proof.
  induction s as [|c t IH]; [reflexivity|].
  cbn [ToLower]. now rewrite lower_idem, IH.
Qed.

End Trimming.

(** ** The scope-file reader, continued *)

Section Reading.
Context {lib : GoLib}.

Lemma includeLine_significant (text : string) :
  includeLine text = significant text && negb (HasPrefix (TrimSpace text) "!").
Proof.
  unfold includeLine, significant.
  destruct (String.eqb (TrimSpace text) ""), (HasPrefix (TrimSpace text) "#"),
    (HasPrefix (TrimSpace text) "!"); reflexivity.
Qed.

(** One step of the scan. *)
Lemma scanLines_skip (text : string) (rest : list string) (lineNum : nat)
    (pats antis : list Regexp) :
  significant text = false ->
  scanLines (text :: rest) lineNum pats antis = scanLines rest (S lineNum) pats antis.
Proof.
  unfold significant. intros S. apply negb_false_iff in S.
  cbn [scanLines]. now rewrite S.
Qed.

Lemma scanLines_step (text : string) (rest : list string) (lineNum : nat)
    (pats antis : list Regexp) :
  significant text = true ->
  scanLines (text :: rest) lineNum pats antis =
  match regexp_Compile (patternText text) with
  | Err e => Err (InvalidPattern (S lineNum) (patternLine text) e)
  | Ok re =>
      if excludeLine text then scanLines rest (S lineNum) pats (antis ++ [re])
      else scanLines rest (S lineNum) (pats ++ [re]) antis
  end.
Proof.
  unfold significant, excludeLine, patternText, patternLine, significant.
  intros S. apply negb_true_iff in S. cbn [scanLines]. rewrite S. cbn [negb andb].
  reflexivity.
Qed.

(** A scan that succeeds has compiled the include lines and the exclude
    lines, each list in the order of the file. *)
Lemma scanLines_Ok (lines : list string) (lineNum : nat)
    (pats antis pats' antis' : list Regexp) :
  scanLines lines lineNum pats antis = Ok (pats', antis') ->
  exists ps xs,
    pats' = (pats ++ ps)%list /\ antis' = (antis ++ xs)%list /\
    Forall2 compiledFrom (filter includeLine lines) ps /\
    Forall2 compiledFrom (filter excludeLine lines) xs.
Proof.
  revert lineNum pats antis. induction lines as [|text rest IH]; intros n pats antis E.
  - injection E as <- <-. exists [], []. rewrite !app_nil_r. repeat split; constructor.
  - cbn [filter]. rewrite includeLine_significant. unfold excludeLine at 1.
    destruct (significant text) eqn:S.
    + rewrite (scanLines_step _ _ _ _ _ S) in E.
      destruct (regexp_Compile (patternText text)) as [re|e] eqn:C; [|discriminate].
      unfold excludeLine in E. rewrite S in E. cbn [andb] in *.
      destruct (HasPrefix (TrimSpace text) "!"); cbn [negb] in *.
      * destruct (IH _ _ _ E) as (ps & xs & -> & -> & Fi & Fx).
        exists ps, (re :: xs). rewrite <- app_assoc. repeat split; [exact Fi|].
        now constructor.
      * destruct (IH _ _ _ E) as (ps & xs & -> & -> & Fi & Fx).
        exists (re :: ps), xs. rewrite <- app_assoc. repeat split; [|exact Fx].
        now constructor.
    + rewrite (scanLines_skip _ _ _ _ _ S) in E. cbn [andb]. exact (IH _ _ _ E).
Qed.

(** When every significant line compiles, the scan succeeds. *)
Lemma scanLines_compiles (lines : list string) (lineNum : nat) (pats antis : list Regexp) :
  (forall text, In text lines -> significant text = true ->
     exists re, compiledFrom text re) ->
  exists r, scanLines lines lineNum pats antis = Ok r.
Proof.
  revert lineNum pats antis. induction lines as [|text rest IH]; intros n pats antis A.
  - eexists. reflexivity.
  - assert (Ar : forall t, In t rest -> significant t = true ->
                   exists re, compiledFrom t re)
      by (intros t Ht; apply A; now right).
    destruct (significant text) eqn:S.
    + rewrite (scanLines_step _ _ _ _ _ S).
      destruct (A text (or_introl eq_refl) S) as (re & C). unfold compiledFrom in C.
      rewrite C. destruct (excludeLine text); now apply IH.
    + rewrite (scanLines_skip _ _ _ _ _ S). now apply IH.
Qed.

(** A scan that succeeds has compiled every significant line. *)
Lemma scanLines_Ok_compiled (lines : list string) (lineNum : nat)
    (pats antis : list Regexp) (r : list Regexp * list Regexp) :
  scanLines lines lineNum pats antis = Ok r ->
  forall text, In text lines -> significant text = true -> exists re, compiledFrom text re.
Proof.
  revert lineNum pats antis. induction lines as [|text rest IH]; intros n pats antis E t Ht St.
  - destruct Ht.
  - destruct (significant text) eqn:S.
    + rewrite (scanLines_step _ _ _ _ _ S) in E.
      destruct (regexp_Compile (patternText text)) as [re|e] eqn:C; [|discriminate].
      destruct Ht as [<-|Ht]; [now exists re|].
      destruct (excludeLine text); exact (IH _ _ _ E t Ht St).
    + rewrite (scanLines_skip _ _ _ _ _ S) in E.
      destruct Ht as [<-|Ht]; [congruence|]. exact (IH _ _ _ E t Ht St).
Qed.

(** The scan stops at the first significant line that does not compile
    and reports its number, blank lines and comments counted. *)
Lemma scanLines_first_error (before rest : list string) (bad : string) (e : error)
    (lineNum : nat) (pats antis : list Regexp) :
  (forall text, In text before -> significant text = true ->
     exists re, compiledFrom text re) ->
  significant bad = true ->
  regexp_Compile (patternText bad) = Err e ->
  scanLines (before ++ bad :: rest) lineNum pats antis =
  Err (InvalidPattern (lineNum + List.length before + 1) (patternLine bad) e).
Proof.
  intros A Sb Cb. revert lineNum pats antis.
  induction before as [|text before IH]; intros n pats antis.
  - cbn [app List.length]. rewrite (scanLines_step _ _ _ _ _ Sb), Cb.
    do 2 f_equal; lia.
  - assert (Ar : forall t, In t before -> significant t = true ->
                   exists re, compiledFrom t re)
      by (intros t Ht; apply A; now right).
    cbn [app List.length]. destruct (significant text) eqn:St.
    + rewrite (scanLines_step _ _ _ _ _ St).
      destruct (A text (or_introl eq_refl) St) as (re & C). unfold compiledFrom in C.
      rewrite C. destruct (excludeLine text); rewrite (IH Ar (S n)); do 2 f_equal; lia.
    + rewrite (scanLines_skip _ _ _ _ _ St), (IH Ar (S n)). do 2 f_equal; lia.
Qed.

(** Blank lines and comments change the line numbers only. *)
Lemma scanLines_filter (lines : list string) (n m : nat) (pats antis : list Regexp)
    (r : list Regexp * list Regexp) :
  scanLines lines n pats antis = Ok r <->
  scanLines (filter significant lines) m pats antis = Ok r.
Proof.
  revert n m pats antis. induction lines as [|text rest IH]; intros n m pats antis.
  - reflexivity.
  - cbn [filter]. destruct (significant text) eqn:S.
    + rewrite !(scanLines_step _ _ _ _ _ S).
      destruct (regexp_Compile (patternText text)) as [re|e];
        [|split; discriminate].
      destruct (excludeLine text); apply IH.
    + rewrite (scanLines_skip _ _ _ _ _ S). apply IH.
Qed.

Lemma scanLines_trimmed (lines : list string) (n : nat) (pats antis : list Regexp) :
  scanLines (map TrimSpace lines) n pats antis = scanLines lines n pats antis.
Proof.
  revert n pats antis. induction lines as [|text rest IH]; intros n pats antis.
  - reflexivity.
  - cbn [map scanLines]. rewrite TrimSpace_idem.
    destruct (String.eqb (TrimSpace text) "" || HasPrefix (TrimSpace text) "#");
      [apply IH|].
    destruct (regexp_Compile _); [|reflexivity].
    destruct (HasPrefix (TrimSpace text) "!"); apply IH.
Qed.

End Reading.

(** X6. A checker that has been built holds the compiled include lines
    of the file in [patterns] and the compiled exclude lines in
    [antipatterns], each in the order of the file, and its counters are
    zero. *)
Theorem newScopeChecker_keeps_order (lib : GoLib) (lines : list string)
    (scanErr : option error) (s : scopeChecker) :
  newScopeChecker lines scanErr = Ok s ->
  Forall2 compiledFrom (filter includeLine lines) (patterns s) /\
  Forall2 compiledFrom (filter excludeLine lines) (antipatterns s) /\
  stats s = Stats.zero.
Proof.
  unfold newScopeChecker. intros E.
  destruct (scanLines lines 0 [] []) as [[pats antis]|e] eqn:Sc; [|discriminate].
  destruct scanErr; [discriminate|]. destruct pats as [|p pats]; [discriminate|].
  injection E as <-. cbn [patterns antipatterns stats].
  destruct (scanLines_Ok _ _ _ _ _ _ Sc) as (ps & xs & -> & -> & Fi & Fx).
  now repeat split.
Qed.

Lemma newScopeChecker_keeps_order_witness :
  let lines := ["# targets"; "*.example.com"; " ! admin.example.com "; ""; "!*.dev.*";
                "*.org"] in
  @newScopeChecker model lines None = Ok (build lines) /\
  texts (patterns (build lines)) = ["^.*\.example\.com$"; "^.*\.org$"] /\
  texts (antipatterns (build lines)) = ["^admin\.example\.com$"; "^.*\.dev\..*$"] /\
  Forall2 (@compiledFrom model) (filter includeLine lines) (patterns (build lines)) /\
  Forall2 (@compiledFrom model) (filter excludeLine lines) (antipatterns (build lines)) /\
  stats (build lines) = Stats.zero.
Proof.
  cbv zeta. split; [reflexivity|]. split; [reflexivity|]. split; [reflexivity|].
  apply (newScopeChecker_keeps_order model _ None). reflexivity.
Defined.

(** X7. A checker is built exactly when the file was read without a read
    error, every line that is neither blank nor a comment compiles,
    and one of the lines is an include line. *)
Theorem newScopeChecker_succeeds_iff (lib : GoLib) (lines : list string)
    (scanErr : option error) :
  (exists s, newScopeChecker lines scanErr = Ok s) <->
  scanErr = None /\
  (forall text, In text lines -> significant text = true ->
     exists re, compiledFrom text re) /\
  (exists text, In text lines /\ includeLine text = true).
Proof.
  unfold newScopeChecker. split.
  - intros (s & E).
    destruct (scanLines lines 0 [] []) as [[pats antis]|e] eqn:Sc; [|discriminate].
    destruct scanErr; [discriminate|]. destruct pats as [|p pats]; [discriminate|].
    split; [reflexivity|]. split; [exact (scanLines_Ok_compiled _ _ _ _ _ Sc)|].
    destruct (scanLines_Ok _ _ _ _ _ _ Sc) as (ps & xs & P & _ & Fi & _).
    cbn [app] in P. subst ps. inversion Fi as [|text re l l' _ _ Ft]; subst.
    exists text. apply filter_In. rewrite <- Ft. now left.
  - intros (-> & A & text & Ht & It).
    destruct (scanLines_compiles lines 0 [] [] A) as ([pats antis] & Sc). rewrite Sc.
    destruct (scanLines_Ok _ _ _ _ _ _ Sc) as (ps & xs & P & _ & Fi & _).
    cbn [app] in P. subst ps.
    destruct pats as [|p pats]; [|eexists; reflexivity].
    inversion Fi as [Ft|]. 
    assert (Hf : In text (filter includeLine lines)) by (apply filter_In; now split).
    rewrite <- Ft in Hf. destruct Hf.
Qed.

(** X8. The error for a pattern that does not compile names the first
    such line by its number in the file, blank lines and comments
    counted from 1, and carries the line as it was compiled, without
    its [!]; it is returned whether or not the read ended in an error. *)
Theorem newScopeChecker_reports_line (lib : GoLib) (before rest : list string)
    (bad : string) (e : error) (scanErr : option error) :
  (forall text, In text before -> significant text = true ->
     exists re, compiledFrom text re) ->
  significant bad = true ->
  regexp_Compile (patternText bad) = Err e ->
  newScopeChecker (before ++ bad :: rest) scanErr =
  Err (InvalidPattern (List.length before + 1) (patternLine bad) e).
Proof.
  intros A Sb Cb. unfold newScopeChecker.
  now rewrite (scanLines_first_error before rest bad e 0 [] [] A Sb Cb).
Qed.

Lemma newScopeChecker_reports_line_witness :
  let before := ["# targets"; "*.example.com"; ""] in
  (forall text, In text before -> significant text = true ->
     exists re, @compiledFrom model text re) /\
  significant " !( " = true /\
  (exists e, @regexp_Compile model (patternText " !( ") = Err e /\
     @newScopeChecker model (before ++ " !( " :: ["*.org"]) (Some (LibError "read")) =
     Err (InvalidPattern 4 "(" e)).
Proof.
  cbv zeta.
  assert (A : forall text, In text ["# targets"; "*.example.com"; ""] ->
                significant text = true -> exists re, @compiledFrom model text re).
  { intros text [<-|[<-|[<-|[]]]] St; try discriminate. eexists. reflexivity. }
  split; [exact A|]. split; [reflexivity|].
  eexists. split; [reflexivity|].
  exact (newScopeChecker_reports_line model _ ["*.org"] " !( " _ (Some (LibError "read"))
           A eq_refl eq_refl).
Defined.

(** X9. Blank lines and comments have no part in the checker that is
    built: with them and without them the same checker results. *)
Theorem newScopeChecker_ignores_comments (lib : GoLib) (lines : list string)
    (scanErr : option error) (s : scopeChecker) :
  newScopeChecker lines scanErr = Ok s <->
  newScopeChecker (filter significant lines) scanErr = Ok s.
Proof.
  unfold newScopeChecker.
  destruct (scanLines lines 0 [] []) as [r|e] eqn:E.
  - apply (scanLines_filter lines 0 0) in E. rewrite E. reflexivity.
  - destruct (scanLines (filter significant lines) 0 [] []) as [r'|e'] eqn:E';
      [|split; discriminate].
    apply (scanLines_filter lines 0 0) in E'. congruence.
Qed.

(** X10. White space around a line of the scope file has no effect:
    the file with every line trimmed gives the same result, errors
    included. *)
Theorem newScopeChecker_ignores_margins (lib : GoLib) (lines : list string)
    (scanErr : option error) :
  newScopeChecker (map TrimSpace lines) scanErr = newScopeChecker lines scanErr.
Proof. unfold newScopeChecker. now rewrite scanLines_trimmed. Qed.

(** ** The input loop *)

Section Loop.
Context {lib : GoLib}.

Lemma incr_small (z : Z) : (0 <= z < 2 ^ 63 - 1)%Z -> incr z = (z + 1)%Z.
Proof.
  intros B. unfold incr, wrap64.
  rewrite Z.mod_small by lia. lia.
Qed.

Lemma inputs_cons (text : string) (rest : list string) :
  inputs (text :: rest) =
  if String.eqb (TrimSpace text) "" then inputs rest else TrimSpace text :: inputs rest.
Proof. unfold inputs. cbn [map filter]. now destruct (String.eqb (TrimSpace text) ""). Qed.

(** The lines printed are those that each input gives by itself. *)
Lemma mainLoop_stdout (config : Config) (s s0 : scopeChecker) (lines : list string) :
  patterns s = patterns s0 -> antipatterns s = antipatterns s0 ->
  fst (mainLoop config s lines) =
  flat_map (fun input => printed config input (inScope config s0 input)) (inputs lines).
Proof.
  revert s. induction lines as [|text rest IH]; intros s P A; [reflexivity|].
  cbn [mainLoop]. rewrite inputs_cons.
  destruct (String.eqb (TrimSpace text) ""); [now apply IH|].
  destruct (inScope_patterns config s (TrimSpace text)) as (P' & A').
  specialize (IH (after (inScope config s (TrimSpace text)))
                 (eq_trans P' P) (eq_trans A' A)).
  destruct (mainLoop config _ rest) as [out final]. cbn [fst flat_map] in *.
  rewrite IH. f_equal.
  destruct (inScope_answer_ext config s0 s (TrimSpace text) P A) as (V & L & _).
  unfold printed. now rewrite V, L.
Qed.

Lemma printed_plain (config : Config) (input : string) (o : outcome) :
  verbose config = false ->
  printed config input o =
  if (if invert config then negb (verdict o) else verdict o) then [input] else [].
Proof. intros V. unfold printed. now rewrite V. Qed.

Lemma flat_map_filter (f : string -> bool) (l : list string) :
  flat_map (fun x => if f x then [x] else []) l = filter f l.
Proof.
  induction l as [|x l IH]; [reflexivity|].
  cbn [flat_map filter]. rewrite IH. now destruct (f x).
Qed.

Lemma mainLoop_filter (config : Config) (s : scopeChecker) (lines : list string) :
  verbose config = false ->
  fst (mainLoop config s lines) =
  filter (fun input => if invert config then negb (accepted config s input)
                       else accepted config s input) (inputs lines).
Proof.
  intros V. rewrite (mainLoop_stdout config s s lines eq_refl eq_refl).
  rewrite <- flat_map_filter. apply flat_map_ext. intros input.
  now rewrite (printed_plain config input _ V).
Qed.

Lemma filter_negb_length (f : string -> bool) (l : list string) :
  List.length (filter f l) + List.length (filter (fun x => negb (f x)) l) = List.length l.
Proof.
  induction l as [|x l IH]; [reflexivity|].
  cbn [filter]. destruct (f x); cbn [negb List.length]; lia.
Qed.

(** The counters after the loop, as long as they stay below the
    largest [int]. *)
Lemma mainLoop_counters (config : Config) (s s0 : scopeChecker) (lines : list string) :
  patterns s = patterns s0 -> antipatterns s = antipatterns s0 ->
  let n := Z.of_nat (List.length (inputs lines)) in
  (0 <= Stats.total (stats s) /\ Stats.total (stats s) + n < 2 ^ 63)%Z ->
  (0 <= Stats.inScope (stats s) /\ Stats.inScope (stats s) + n < 2 ^ 63)%Z ->
  (0 <= Stats.outScope (stats s) /\ Stats.outScope (stats s) + n < 2 ^ 63)%Z ->
  stats (snd (mainLoop config s lines)) =
  {| Stats.total := Stats.total (stats s) + n;
     Stats.inScope := Stats.inScope (stats s) + count (accepted config s0) (inputs lines);
     Stats.outScope := Stats.outScope (stats s) + count (rejected config s0) (inputs lines) |}.
Proof.
  revert s. induction lines as [|text rest IH]; intros s P A n Bt Bi Bo.
  - unfold count. cbn. rewrite !Z.add_0_r. now destruct (stats s).
  - subst n. cbn [mainLoop]. rewrite inputs_cons in *.
    destruct (String.eqb (TrimSpace text) ""); [now apply IH|].
    set (input := TrimSpace text) in *. cbn [List.length] in *.
    destruct (inScope_patterns config s input) as (P' & A').
    specialize (IH (after (inScope config s input)) (eq_trans P' P) (eq_trans A' A)).
    destruct (inScope_answer_ext config s0 s input P A) as (V & _).
    assert (St : stats (after (inScope config s input)) =
                 {| Stats.total := Stats.total (stats s) + 1;
                    Stats.inScope := Stats.inScope (stats s)
                                     + (if accepted config s0 input then 1 else 0);
                    Stats.outScope := Stats.outScope (stats s)
                                      + (if rejected config s0 input then 1 else 0) |}).
    { unfold accepted, rejected. rewrite <- V.
      destruct (extractDomain config input) as [raw|] eqn:E.
      - destruct (inScope_counts lib config s input raw E) as [(Vs & C)|(Vs & C)];
          rewrite Vs, C; cbn [negb andb];
          unfold Stats.incInScope, Stats.incOutScope, Stats.incTotal;
          cbn [Stats.total Stats.inScope Stats.outScope];
          rewrite !incr_small by lia; f_equal; lia.
      - destruct (inScope_strict_failure config s input E) as (Vs & _ & _ & _ & C).
        rewrite Vs, C. cbn [negb andb]. unfold Stats.incTotal.
        cbn [Stats.total Stats.inScope Stats.outScope].
        rewrite !incr_small by lia. f_equal; lia. }
    destruct (mainLoop config _ rest) as [out final]. cbn [snd] in *.
    rewrite IH; rewrite St; cbn [Stats.total Stats.inScope Stats.outScope].
    + unfold count. cbn [filter].
      destruct (accepted config s0 input), (rejected config s0 input);
        cbn [List.length]; f_equal; lia.
    + lia.
    + destruct (accepted config s0 input); lia.
    + destruct (rejected config s0 input); lia.
Qed.

End Loop.

Section LoopFlags.
Context {lib : GoLib}.

(** [inScope] reads the strict flag and no other. *)
Lemma inScope_withInvert (b : bool) (config : Config) (s : scopeChecker) (input : string) :
  inScope (withInvert b config) s input = inScope config s input.
Proof. reflexivity. Qed.

Lemma rejected_lenient (config : Config) (s : scopeChecker) (input : string) :
  strict config = false -> rejected config s input = negb (accepted config s input).
Proof.
  intros S. unfold rejected, accepted.
  destruct (lenient_domain config input S) as (raw & ->). apply andb_true_r.
Qed.

End LoopFlags.

(** X11. Without [-v] the loop prints, in the order of the input, the
    trimmed non-empty lines that [inScope] answers in scope, or with
    [-i] those that it answers out of scope, each as it stands. *)
Theorem mainLoop_prints_the_scope (lib : GoLib) (config : Config) (s : scopeChecker)
    (lines : list string) :
  verbose config = false ->
  fst (mainLoop config s lines) =
  filter (fun input => if invert config then negb (verdict (inScope config s input))
                       else verdict (inScope config s input)) (inputs lines).
Proof. intros V. exact (mainLoop_filter config s lines V). Qed.

Lemma mainLoop_prints_the_scope_witness :
  let lines := ["  www.example.com "; ""; "admin.example.com"; "example.org";
                "https://API.example.com/v1"] in
  let s := build ["*.example.com"; "!admin.*"] in
  verbose defaultConfig = false /\
  fst (mainLoop defaultConfig s lines) = ["www.example.com"; "https://API.example.com/v1"] /\
  fst (mainLoop defaultConfig s lines) =
  filter (fun input => if invert defaultConfig
                       then negb (verdict (inScope defaultConfig s input))
                       else verdict (inScope defaultConfig s input)) (inputs lines).
Proof.
  cbv zeta. split; [reflexivity|]. split; [reflexivity|].
  apply (mainLoop_prints_the_scope model defaultConfig). reflexivity.
Defined.

(** X12. Without [-v], a run with [-i] prints the inputs that the run
    without [-i] does not print: every input is printed by one of the
    two runs and not by the other. *)
Theorem mainLoop_invert_complements (lib : GoLib) (config : Config) (s : scopeChecker)
    (lines : list string) :
  verbose config = false ->
  let plain := fst (mainLoop (withInvert false config) s lines) in
  let inverted := fst (mainLoop (withInvert true config) s lines) in
  List.length plain + List.length inverted = List.length (inputs lines) /\
  forall input, In input (inputs lines) -> (In input plain <-> ~ In input inverted).
Proof.
  intros V. cbv zeta.
  rewrite (mainLoop_filter (withInvert false config) s lines V).
  rewrite (mainLoop_filter (withInvert true config) s lines V).
  cbn [invert withInvert]. unfold accepted. split.
  - apply (filter_negb_length (fun input => verdict (inScope config s input))).
  - intros input Hin. rewrite !filter_In, !inScope_withInvert.
    destruct (verdict (inScope config s input)); cbn [negb]; split.
    + intros _ (_ & F). discriminate.
    + intros _. now split.
    + intros (_ & F). discriminate.
    + intros N. exfalso. apply N. now split.
Qed.

Lemma mainLoop_invert_complements_witness :
  let lines := ["www.example.com"; "admin.example.com"; "example.org"] in
  let s := build ["*.example.com"; "!admin.*"] in
  verbose strictConfig = false /\
  fst (mainLoop (withInvert false strictConfig) s lines) = ["www.example.com"] /\
  fst (mainLoop (withInvert true strictConfig) s lines)
    = ["admin.example.com"; "example.org"] /\
  (List.length (fst (mainLoop (withInvert false strictConfig) s lines))
   + List.length (fst (mainLoop (withInvert true strictConfig) s lines))
   = List.length (inputs lines) /\
   forall input, In input (inputs lines) ->
     (In input (fst (mainLoop (withInvert false strictConfig) s lines)) <->
      ~ In input (fst (mainLoop (withInvert true strictConfig) s lines)))).
Proof.
  cbv zeta. split; [reflexivity|]. split; [reflexivity|]. split; [reflexivity|].
  apply (mainLoop_invert_complements model strictConfig). reflexivity.
Defined.

(** X13. From a fresh checker, and for fewer than 2^63 inputs, the
    loop leaves in [total] the number of trimmed non-empty lines, in
    [inScope] the number of them answered in scope, and in [outScope]
    the number of them answered out of scope after the patterns were
    tried; blank lines are not counted, and neither flag [-i] nor [-v]
    changes the counters. *)
Theorem mainLoop_counters_count (lib : GoLib) (config : Config) (s : scopeChecker)
    (lines : list string) :
  stats s = Stats.zero ->
  (Z.of_nat (List.length (inputs lines)) < 2 ^ 63)%Z ->
  stats (snd (mainLoop config s lines)) =
  {| Stats.total := Z.of_nat (List.length (inputs lines));
     Stats.inScope := count (accepted config s) (inputs lines);
     Stats.outScope := count (rejected config s) (inputs lines) |}.
Proof.
  intros Z0 B.
  rewrite (mainLoop_counters config s s lines eq_refl eq_refl); rewrite Z0; cbn; try lia.
  reflexivity.
Qed.

Lemma mainLoop_counters_count_witness :
  let lines := ["www.example.com"; "  "; "not a valid url???"; "example.org"] in
  let s := build ["*.example.com"] in
  stats s = Stats.zero /\
  (Z.of_nat (List.length (inputs lines)) < 2 ^ 63)%Z /\
  stats (snd (mainLoop strictConfig s lines)) =
    {| Stats.total := 3; Stats.inScope := 1; Stats.outScope := 1 |} /\
  stats (snd (mainLoop strictConfig s lines)) =
  {| Stats.total := Z.of_nat (List.length (inputs lines));
     Stats.inScope := count (accepted strictConfig s) (inputs lines);
     Stats.outScope := count (rejected strictConfig s) (inputs lines) |}.
Proof.
  cbv zeta. split; [reflexivity|]. split; [reflexivity|]. split; [reflexivity|].
  apply (mainLoop_counters_count model strictConfig); reflexivity.
Defined.

(** X14. Without the strict flag, from a fresh checker and for fewer
    than 2^63 inputs, the counters add up after the loop: [total] is
    [inScope] plus [outScope]. *)
Theorem mainLoop_lenient_balance (lib : GoLib) (config : Config) (s : scopeChecker)
    (lines : list string) :
  strict config = false ->
  stats s = Stats.zero ->
  (Z.of_nat (List.length (inputs lines)) < 2 ^ 63)%Z ->
  let final := stats (snd (mainLoop config s lines)) in
  Stats.total final = (Stats.inScope final + Stats.outScope final)%Z.
Proof.
  intros S Z0 B. cbv zeta.
  rewrite (mainLoop_counters config s s lines eq_refl eq_refl); rewrite Z0; cbn; try lia.
  unfold count.
  rewrite (filter_ext (rejected config s) (fun x => negb (accepted config s x)))
    by (intros x; now apply rejected_lenient).
  rewrite <- (filter_negb_length (accepted config s) (inputs lines)). lia.
Qed.

Lemma mainLoop_lenient_balance_witness :
  let lines := ["www.example.com"; "  "; "not a valid url???"; "example.org"] in
  let s := build ["*.example.com"] in
  strict defaultConfig = false /\ stats s = Stats.zero /\
  (Z.of_nat (List.length (inputs lines)) < 2 ^ 63)%Z /\
  Stats.total (stats (snd (mainLoop defaultConfig s lines))) =
  (Stats.inScope (stats (snd (mainLoop defaultConfig s lines)))
   + Stats.outScope (stats (snd (mainLoop defaultConfig s lines))))%Z.
Proof.
  cbv zeta. split; [reflexivity|]. split; [reflexivity|]. split; [reflexivity|].
  apply (mainLoop_lenient_balance model defaultConfig); reflexivity.
Defined.

(** ** Finding the scope file *)

Section Locating.
Context {os : GoOS}.

Lemma ancestor_parent (pwd : string) (i : nat) :
  ancestor (filepath_Dir pwd) i = ancestor pwd (S i).
Proof. unfold ancestor. now rewrite Nat.iter_succ_r. Qed.

Lemma noneBelow_parent (pwd : string) (k : nat) :
  noneBelow pwd (S k) -> noneBelow (filepath_Dir pwd) k.
Proof.
  intros N i Hi. unfold scopePathAt. rewrite ancestor_parent.
  apply (N (S i)). lia.
Qed.

Lemma paths_parent (pwd : string) (k : nat) :
  map (scopePathAt pwd) (seq 0 (S k)) =
  scopePathAt pwd 0 :: map (scopePathAt (filepath_Dir pwd)) (seq 0 k).
Proof.
  cbn [seq map]. f_equal. rewrite <- seq_shift, map_map.
  apply map_ext. intros i. unfold scopePathAt. now rewrite ancestor_parent.
Qed.

(** The search upwards ends at the first directory whose scope file
    opens. *)
Lemma searchUp_found (k : nat) (pwd : string) (f : File) (fuel : nat) :
  noneBelow pwd k ->
  os_Open (scopePathAt pwd k) = Ok f ->
  k < fuel ->
  searchUp fuel pwd =
  Some (Some (f, scopePathAt pwd k), map (scopePathAt pwd) (seq 0 (S k))).
Proof.
  revert pwd fuel. induction k as [|k IH]; intros pwd fuel N O F;
    (destruct fuel as [|fuel]; [lia|]); cbn [searchUp].
  - change (filepath_Join [pwd; ".scope"]) with (scopePathAt pwd 0). now rewrite O.
  - destruct (N 0 ltac:(lia)) as ((e & E) & D).
    change (filepath_Join [pwd; ".scope"]) with (scopePathAt pwd 0). rewrite E.
    change (ancestor pwd 0) with pwd in D. apply String.eqb_neq in D. rewrite D.
    rewrite (IH (filepath_Dir pwd) fuel (noneBelow_parent _ _ N)).
    + unfold scopePathAt at 1. rewrite ancestor_parent.
      now rewrite (paths_parent pwd (S k)).
    + unfold scopePathAt. now rewrite ancestor_parent.
    + lia.
Qed.

(** It ends without a file at the directory that is its own parent. *)
Lemma searchUp_root (k : nat) (pwd : string) (fuel : nat) :
  noneBelow pwd k ->
  (exists e, os_Open (scopePathAt pwd k) = Err e) ->
  filepath_Dir (ancestor pwd k) = ancestor pwd k ->
  k < fuel ->
  searchUp fuel pwd = Some (None, map (scopePathAt pwd) (seq 0 (S k))).
Proof.
  revert pwd fuel. induction k as [|k IH]; intros pwd fuel N (e & O) R F;
    (destruct fuel as [|fuel]; [lia|]); cbn [searchUp].
  - change (filepath_Join [pwd; ".scope"]) with (scopePathAt pwd 0). rewrite O.
    change (ancestor pwd 0) with pwd in R. rewrite R, String.eqb_refl. reflexivity.
  - destruct (N 0 ltac:(lia)) as ((e0 & E) & D).
    change (filepath_Join [pwd; ".scope"]) with (scopePathAt pwd 0). rewrite E.
    change (ancestor pwd 0) with pwd in D. apply String.eqb_neq in D. rewrite D.
    rewrite (IH (filepath_Dir pwd) fuel (noneBelow_parent _ _ N)).
    + now rewrite (paths_parent pwd (S k)).
    + exists e. unfold scopePathAt. now rewrite ancestor_parent.
    + now rewrite !ancestor_parent.
    + lia.
Qed.

(** The common locations are tried in their order. *)
Lemma firstOpen_first (before rest : list string) (loc : string) (f : File) :
  (forall l, In l before -> exists e, os_Open l = Err e) ->
  os_Open loc = Ok f ->
  firstOpen (before ++ loc :: rest) = (Some (f, loc), (before ++ [loc])%list).
Proof.
  intros N O. induction before as [|l before IH]; cbn [app firstOpen].
  - now rewrite O.
  - destruct (N l (or_introl eq_refl)) as (e & ->).
    rewrite IH; [reflexivity|]. intros x Hx. apply N. now right.
Qed.

Lemma firstOpen_none (locations : list string) :
  (forall l, In l locations -> exists e, os_Open l = Err e) ->
  firstOpen locations = (None, locations).
Proof.
  induction locations as [|l rest IH]; intros N; [reflexivity|].
  cbn [firstOpen]. destruct (N l (or_introl eq_refl)) as (e & ->).
  rewrite IH; [reflexivity|]. intros x Hx. apply N. now right.
Qed.

End Locating.

(** X15. With [-f] the named file is the only one opened: the
    directories and the common locations are not searched, nothing is
    written to the standard error even with [-v], and when the file
    does not open the call fails with the error of [os.Open]. *)
Theorem openScopefile_explicit (os : GoOS) (fuel : nat) (config : Config) :
  scopeFile config <> "" ->
  exists r, openScopefile fuel config = Some r /\
    tried r = [scopeFile config] /\ messages r = [] /\
    answer r = match os_Open (scopeFile config) with
               | Ok f => Opened f
               | Err e => Failed (CannotOpen (scopeFile config) e)
               end.
Proof.
  intros N. apply String.eqb_neq in N. unfold openScopefile. rewrite N. cbn [negb].
  destruct (os_Open (scopeFile config)); eexists; (split; [reflexivity|]); now repeat split.
Qed.

Lemma openScopefile_explicit_witness :
  let config := {| scopeFile := "/tmp/scope.txt"; verbose := true; invert := false;
                   showStats := false; strict := false |} in
  scopeFile config <> "" /\
  exists r, @openScopefile (ToyFS.os ToyFS.project) 0 config = Some r /\
    tried r = [scopeFile config] /\ messages r = [] /\
    answer r = match @os_Open (ToyFS.os ToyFS.project) (scopeFile config) with
               | Ok f => Opened f
               | Err e => Failed (CannotOpen (scopeFile config) e)
               end.
Proof.
  cbv zeta.
  assert (N : scopeFile {| scopeFile := "/tmp/scope.txt"; verbose := true;
                           invert := false; showStats := false; strict := false |}
              <> "") by discriminate.
  split; [exact N|].
  exact (openScopefile_explicit (ToyFS.os ToyFS.project) 0 _ N).
Defined.

(** X16. Without [-f], the scope file of the nearest directory from the
    working directory upwards that has one that opens is the one
    returned; the directories are tried from the working directory up
    to that one and no further, and with [-v] the path is reported. *)
Theorem openScopefile_nearest (os : GoOS) (config : Config) (pwd : string)
    (k fuel : nat) (f : File) :
  scopeFile config = "" ->
  os_Getwd = Ok pwd ->
  noneBelow pwd k ->
  os_Open (scopePathAt pwd k) = Ok f ->
  k < fuel ->
  openScopefile fuel config =
  Some {| answer := Opened f;
          tried := map (scopePathAt pwd) (seq 0 (S k));
          messages := usingMessage config (scopePathAt pwd k) |}.
Proof.
  intros E G N O F. unfold openScopefile. rewrite E, G. cbn [String.eqb negb].
  now rewrite (searchUp_found k pwd f fuel N O F).
Qed.

Lemma openScopefile_nearest_witness :
  let os := ToyFS.os ToyFS.project in
  let config := {| scopeFile := ""; verbose := true; invert := false;
                   showStats := false; strict := false |} in
  scopeFile config = "" /\
  @os_Getwd os = Ok "/work/acme/recon/out" /\
  @noneBelow os "/work/acme/recon/out" 2 /\
  @os_Open os (@scopePathAt os "/work/acme/recon/out" 2)
    = Ok ["*.acme.test"; "!dev.acme.test"] /\
  @openScopefile os 3 config =
  Some {| answer := Opened ["*.acme.test"; "!dev.acme.test"];
          tried := map (@scopePathAt os "/work/acme/recon/out") (seq 0 3);
          messages := usingMessage config (@scopePathAt os "/work/acme/recon/out" 2) |}.
Proof.
  cbv zeta.
  assert (N : @noneBelow (ToyFS.os ToyFS.project) "/work/acme/recon/out" 2).
  { intros [|[|i]] Hi; [| |lia];
      (split; [eexists; vm_compute; reflexivity
              | intros H; vm_compute in H; discriminate]). }
  assert (O : @os_Open (ToyFS.os ToyFS.project)
                (@scopePathAt (ToyFS.os ToyFS.project) "/work/acme/recon/out" 2)
              = Ok ["*.acme.test"; "!dev.acme.test"]) by (vm_compute; reflexivity).
  split; [reflexivity|]. split; [reflexivity|]. split; [exact N|].
  split; [exact O|].
  apply (openScopefile_nearest (ToyFS.os ToyFS.project)
           {| scopeFile := ""; verbose := true; invert := false;
              showStats := false; strict := false |}
           "/work/acme/recon/out" 2 3 ["*.acme.test"; "!dev.acme.test"]
           eq_refl eq_refl N O). lia.
Defined.

(** X17. When no directory up to the root has a scope file that opens,
    the common locations are tried in this order: [.scope] in the home
    directory, [.config/inscope/scope] in the home directory,
    [/etc/inscope/scope]; the first that opens is returned, and the
    ones after it are not tried. *)
Theorem openScopefile_fallback (os : GoOS) (config : Config) (pwd homeDir : string)
    (k fuel : nat) (before rest : list string) (loc : string) (f : File) :
  scopeFile config = "" ->
  os_Getwd = Ok pwd ->
  noneBelow pwd k ->
  (exists e, os_Open (scopePathAt pwd k) = Err e) ->
  filepath_Dir (ancestor pwd k) = ancestor pwd k ->
  k < fuel ->
  os_UserHomeDir = Ok homeDir ->
  [ filepath_Join [homeDir; ".scope"];
    filepath_Join [homeDir; ".config"; "inscope"; "scope"];
    "/etc/inscope/scope" ] = (before ++ loc :: rest)%list ->
  (forall l, In l before -> exists e, os_Open l = Err e) ->
  os_Open loc = Ok f ->
  openScopefile fuel config =
  Some {| answer := Opened f;
          tried := (map (scopePathAt pwd) (seq 0 (S k)) ++ before ++ [loc])%list;
          messages := usingMessage config loc |}.
Proof.
  intros E G N O R F H L B Ol. unfold openScopefile. rewrite E, G. cbn [String.eqb negb].
  rewrite (searchUp_root k pwd fuel N O R F), H.
  unfold commonLocations. rewrite L.
  now rewrite (firstOpen_first before rest loc f B Ol).
Qed.

Lemma openScopefile_fallback_witness :
  let os := ToyFS.os ToyFS.system in
  let config := defaultConfig in
  scopeFile config = "" /\
  @os_Getwd os = Ok "/work/acme" /\
  @noneBelow os "/work/acme" 2 /\
  (exists e, @os_Open os (@scopePathAt os "/work/acme" 2) = Err e) /\
  @filepath_Dir os (@ancestor os "/work/acme" 2) = @ancestor os "/work/acme" 2 /\
  @os_UserHomeDir os = Ok "/home/ann" /\
  (forall l, In l ["/home/ann/.scope"; "/home/ann/.config/inscope/scope"] ->
     exists e, @os_Open os l = Err e) /\
  @os_Open os "/etc/inscope/scope" = Ok ["*.example.com"] /\
  @openScopefile os 3 config =
  Some {| answer := Opened ["*.example.com"];
          tried := (map (@scopePathAt os "/work/acme") (seq 0 3)
                    ++ ["/home/ann/.scope"; "/home/ann/.config/inscope/scope"]
                    ++ ["/etc/inscope/scope"])%list;
          messages := usingMessage config "/etc/inscope/scope" |} /\
  map (@scopePathAt os "/work/acme") (seq 0 3) = ["/work/acme/.scope"; "/work/.scope"; "/.scope"].
Proof.
  cbv zeta.
  assert (N : @noneBelow (ToyFS.os ToyFS.system) "/work/acme" 2).
  { intros [|[|i]] Hi; [| |lia];
      (split; [eexists; vm_compute; reflexivity
              | intros H; vm_compute in H; discriminate]). }
  assert (O : exists e, @os_Open (ToyFS.os ToyFS.system)
                          (@scopePathAt (ToyFS.os ToyFS.system) "/work/acme" 2) = Err e)
    by (eexists; vm_compute; reflexivity).
  assert (R : @filepath_Dir (ToyFS.os ToyFS.system)
                (@ancestor (ToyFS.os ToyFS.system) "/work/acme" 2)
              = @ancestor (ToyFS.os ToyFS.system) "/work/acme" 2)
    by (vm_compute; reflexivity).
  assert (B : forall l, In l ["/home/ann/.scope"; "/home/ann/.config/inscope/scope"] ->
                exists e, @os_Open (ToyFS.os ToyFS.system) l = Err e).
  { intros l [<-|[<-|[]]]; eexists; vm_compute; reflexivity. }
  assert (Ol : @os_Open (ToyFS.os ToyFS.system) "/etc/inscope/scope"
               = Ok ["*.example.com"]) by (vm_compute; reflexivity).
  split; [reflexivity|]. split; [reflexivity|]. split; [exact N|]. split; [exact O|].
  split; [exact R|]. split; [reflexivity|]. split; [exact B|]. split; [exact Ol|].
  split; [|vm_compute; reflexivity].
  apply (openScopefile_fallback (ToyFS.os ToyFS.system) defaultConfig "/work/acme"
           "/home/ann" 2 3 ["/home/ann/.scope"; "/home/ann/.config/inscope/scope"] []
           "/etc/inscope/scope" ["*.example.com"] eq_refl eq_refl N O R);
    [lia | reflexivity | vm_compute; reflexivity | exact B | exact Ol].
Defined.

(** X18. When no directory up to the root has a scope file that opens
    and the home directory cannot be determined, the call fails with
    the not-found error without trying any of the common locations,
    [/etc/inscope/scope] included. *)
Theorem openScopefile_without_home (os : GoOS) (config : Config) (pwd : string)
    (k fuel : nat) (e : error) :
  scopeFile config = "" ->
  os_Getwd = Ok pwd ->
  noneBelow pwd k ->
  (exists e', os_Open (scopePathAt pwd k) = Err e') ->
  filepath_Dir (ancestor pwd k) = ancestor pwd k ->
  k < fuel ->
  os_UserHomeDir = Err e ->
  openScopefile fuel config =
  Some {| answer := Failed NotFound;
          tried := map (scopePathAt pwd) (seq 0 (S k));
          messages := [] |}.
Proof.
  intros E G N O R F H. unfold openScopefile. rewrite E, G. cbn [String.eqb negb].
  now rewrite (searchUp_root k pwd fuel N O R F), H.
Qed.

Lemma openScopefile_without_home_witness :
  let os := ToyFS.os ToyFS.homeless in
  scopeFile defaultConfig = "" /\
  @os_Getwd os = Ok "/work/acme" /\
  @noneBelow os "/work/acme" 2 /\
  (exists e', @os_Open os (@scopePathAt os "/work/acme" 2) = Err e') /\
  @filepath_Dir os (@ancestor os "/work/acme" 2) = @ancestor os "/work/acme" 2 /\
  @os_UserHomeDir os = Err (LibError "$HOME is not defined") /\
  @os_Open os "/etc/inscope/scope" = Ok ["*.example.com"] /\
  @openScopefile os 3 defaultConfig =
  Some {| answer := Failed NotFound;
          tried := map (@scopePathAt os "/work/acme") (seq 0 3);
          messages := [] |} /\
  map (@scopePathAt os "/work/acme") (seq 0 3) = ["/work/acme/.scope"; "/work/.scope"; "/.scope"].
Proof.
  cbv zeta.
  assert (N : @noneBelow (ToyFS.os ToyFS.homeless) "/work/acme" 2).
  { intros [|[|i]] Hi; [| |lia];
      (split; [eexists; vm_compute; reflexivity
              | intros H; vm_compute in H; discriminate]). }
  assert (O : exists e, @os_Open (ToyFS.os ToyFS.homeless)
                          (@scopePathAt (ToyFS.os ToyFS.homeless) "/work/acme" 2) = Err e)
    by (eexists; vm_compute; reflexivity).
  assert (R : @filepath_Dir (ToyFS.os ToyFS.homeless)
                (@ancestor (ToyFS.os ToyFS.homeless) "/work/acme" 2)
              = @ancestor (ToyFS.os ToyFS.homeless) "/work/acme" 2)
    by (vm_compute; reflexivity).
  split; [reflexivity|]. split; [reflexivity|]. split; [exact N|]. split; [exact O|].
  split; [exact R|]. split; [reflexivity|]. split; [vm_compute; reflexivity|].
  split; [|vm_compute; reflexivity].
  apply (openScopefile_without_home (ToyFS.os ToyFS.homeless) defaultConfig "/work/acme"
           2 3 (LibError "$HOME is not defined") eq_refl eq_refl N O R);
    [lia | reflexivity].
Defined.

(** X19. With a scope file that has no include line, [main] prints
    nothing and exits with status 1, whatever the input and the flags. *)
Theorem main_without_includes (lib : GoLib) (os : GoOS) (config : Config) (f : File)
    (stdin : list string) (stdinErr : option error) :
  (forall text, In text (fst (fileLines f)) -> includeLine text = false) ->
  main config (Opened f) stdin stdinErr =
  {| stdout := []; exitStatus := 1; counters := None |}.
Proof.
  intros N. unfold main. destruct (fileLines f) as [lines scanErr]. cbn [fst] in N.
  unfold newScopeChecker.
  destruct (scanLines_no_include lines 0 [] N) as [(e & -> & _)|(antis & ->)];
    [reflexivity|].
  destruct scanErr; reflexivity.
Qed.

Lemma main_without_includes_witness :
  let f : @File (ToyFS.os ToyFS.project) :=
    ["# everything is excluded"; "!*.example.com"] in
  (forall text, In text (fst (@fileLines (ToyFS.os ToyFS.project) f)) ->
     includeLine text = false) /\
  @main model (ToyFS.os ToyFS.project) defaultConfig (Opened f)
    ["www.example.com"; "example.org"] None =
  {| stdout := []; exitStatus := 1; counters := None |}.
Proof.
  cbv zeta.
  assert (N : forall text,
             In text (fst (@fileLines (ToyFS.os ToyFS.project)
                             ["# everything is excluded"; "!*.example.com"])) ->
             includeLine text = false).
  { intros text [<-|[<-|[]]]; reflexivity. }
  split; [exact N|].
  exact (main_without_includes model (ToyFS.os ToyFS.project) defaultConfig _ _ None N).
Defined.

(** ** Normalisation and URL-likeness, continued *)

Section Shapes.





Lemma isURL_ToLower (s : string) : isURL (ToLower s) = isURL s.
Proof. unfold isURL. cbv zeta. now rewrite ToLower_idem. Qed.

Lemma ToLower_append (a b : string) : ToLower (a ++ b) = ToLower a ++ ToLower b.
Proof. induction a as [|c a IH]; [reflexivity|]. cbn [append ToLower]. now rewrite IH. Qed.


(** The byte that ends a string with a [c] in it comes after the [c],
    or is the [c]. *)
Lemma HasSuffix_after (a b : string) (c x : ascii) :
  HasSuffix (a ++ String c b) (String x "") = true ->
  mem x b = true \/ (b = "" /\ x = c).
Proof.
  unfold HasSuffix. rewrite rev_append. change (rev (String x "")) with (String x "").
  cbn [rev]. destruct (rev b) as [|y q] eqn:R; cbn [append String.prefix].
  - destruct (ascii_dec x c) as [->|]; [|discriminate]. intros _. right. split; [|reflexivity].
    rewrite <- (rev_involutive b), R. reflexivity.
  - destruct (ascii_dec x y) as [->|]; [|discriminate]. intros _. left.
    exact (rev_head_mem _ _ _ R).
Qed.

Lemma mem_TrimLeft (c : ascii) (s : string) : mem c (TrimLeft s) = true -> mem c s = true.
Proof.
  induction s as [|x t IH]; [discriminate|].
  cbn [TrimLeft]. destruct (isSpace x); [|trivial].
  intros M. cbn [mem]. rewrite (IH M). apply orb_true_r.
Qed.

Lemma mem_TrimRight (c : ascii) (s : string) : mem c (TrimRight s) = true -> mem c s = true.
Proof.
  induction s as [|x t IH]; [discriminate|].
  cbn [TrimRight]. destruct (TrimRight t) as [|y r].
  - destruct (isSpace x); [discriminate|]. cbn [mem]. rewrite orb_false_r.
    intros ->. reflexivity.
  - cbn [mem] in *. intros M. apply orb_prop in M as [->|M]; [reflexivity|].
    rewrite (IH M). apply orb_true_r.
Qed.

Lemma mem_TrimSpace (c : ascii) (s : string) : mem c (TrimSpace s) = true -> mem c s = true.
Proof. intros M. apply mem_TrimLeft, mem_TrimRight, M. Qed.

Lemma mem_ToLower (c : ascii) (s : string) :
  mem c ":/?#" = true -> mem c (ToLower s) = mem c s.
Proof.
  intros M. induction s as [|x t IH]; [reflexivity|].
  cbn [ToLower mem]. now rewrite IH, (proj2 (lower_separators x) c M).
Qed.

Lemma HasPrefix_mem (s p : string) (c : ascii) :
  HasPrefix s p = true -> mem c p = true -> mem c s = true.
Proof.
  unfold HasPrefix. revert s. induction p as [|d p IH]; intros s P M; [discriminate|].
  destruct s as [|x s]; [discriminate|].
  rewrite prefix_cons in P. apply andb_prop in P as [E P].
  apply Ascii.eqb_eq in E. subst x. cbn [mem] in *.
  apply orb_prop in M as [->|M]; [reflexivity|].
  rewrite (IH s P M). apply orb_true_r.
Qed.

Lemma Contains_mem (s sep : string) (c : ascii) :
  Contains s sep = true -> mem c sep = true -> mem c s = true.
Proof.
  intros C M. induction s as [|x t IH]; cbn [Contains] in C.
  - rewrite orb_false_r in C. exact (HasPrefix_mem _ _ _ C M).
  - apply orb_prop in C as [C|C]; [exact (HasPrefix_mem _ _ _ C M)|].
    cbn [mem]. rewrite (IH C). apply orb_true_r.
Qed.

(** Without a colon, a slash, a question mark or a hash an input is
    not URL-like. *)
Lemma isURL_plain (s : string) : ContainsAny s ":/?#" = false -> isURL s = false.
Proof.
  intros A.
  assert (N : forall c, mem c ":/?#" = true -> mem c (TrimSpace s) = false).
  { intros c M. destruct (mem c (TrimSpace s)) eqn:E; [|reflexivity].
    apply mem_TrimSpace in E. now rewrite (ContainsAny_false_mem _ _ c A M) in E. }
  assert (NL : mem ":" (ToLower (TrimSpace s)) = false)
    by (rewrite mem_ToLower by reflexivity; now apply N).
  rewrite isURL_trimmed. cbv zeta.
  assert (P : forall p, mem ":" p = true -> HasPrefix (ToLower (TrimSpace s)) p = false).
  { intros p M. destruct (HasPrefix _ p) eqn:E; [|reflexivity].
    now rewrite (HasPrefix_mem _ _ ":" E M) in NL. }
  assert (C : forall sep c, mem c ":/?#" = true -> mem c sep = true ->
                Contains (TrimSpace s) sep = false).
  { intros sep c M Ms. destruct (Contains _ sep) eqn:E; [|reflexivity].
    pose proof (Contains_mem _ _ c E Ms) as X. now rewrite (N c M) in X. }
  rewrite !P by reflexivity.
  rewrite (C "://" ":"%char), (C "/" "/"%char), (C "?" "?"%char), (C "#" "#"%char)
    by reflexivity.
  reflexivity.
Qed.

End Shapes.


(** X21. The trailing dot is taken off before the port: a dot that ends
    the host name in front of a port stays.  When the lowered domain is
    a host name without colon and not starting with a bracket, a dot,
    a colon and a port without dot and colon, the result is the host
    name with its dot. *)
Theorem normalizeDomain_dot_before_port (domain host port : string) :
  ToLower domain = host ++ ".:" ++ port ->
  Contains host ":" = false -> HasPrefix host "[" = false ->
  Contains port ":" = false -> Contains port "." = false ->
  normalizeDomain domain = host ++ ".".
Proof.
  intros E Ch Bh Cp Dp. rewrite Contains_byte in Ch, Cp, Dp.
  assert (S : ToLower domain = (host ++ ".") ++ ":" ++ port)
    by (rewrite E, append_assoc; reflexivity).
  assert (W : withoutTrailingDot (ToLower domain) (ToLower domain)).
  { right. split; [reflexivity|].
    destruct (HasSuffix (ToLower domain) ".") eqn:H; [|reflexivity].
    rewrite S in H. apply HasSuffix_after in H as [H|[_ H]]; [congruence | discriminate]. }
  rewrite (normalize_colon domain _ (host ++ ".") port W S)
    by (now rewrite Contains_byte).
  rewrite Contains_byte, mem_append, Ch. cbn [mem orb negb andb Ascii.eqb Bool.eqb].
  replace (HasPrefix (ToLower domain) "[") with false; [reflexivity|].
  rewrite E. destruct host as [|c host]; [reflexivity|].
  cbn [append]. rewrite HasPrefix_byte. now rewrite HasPrefix_byte in Bh.
Qed.

Lemma normalizeDomain_dot_before_port_witness :
  ToLower "Example.COM.:8080" = "example.com" ++ ".:" ++ "8080" /\
  Contains "example.com" ":" = false /\ HasPrefix "example.com" "[" = false /\
  Contains "8080" ":" = false /\ Contains "8080" "." = false /\
  normalizeDomain "Example.COM.:8080" = "example.com" ++ ".".
Proof.
  repeat (split; [reflexivity|]).
  apply (normalizeDomain_dot_before_port "Example.COM.:8080" "example.com" "8080");
    reflexivity.
Defined.

(** X22. [isURL] gives the same answer for an input, for the input in
    lower case and for the input without its surrounding white space. *)
Theorem isURL_case_and_margins (s : string) :
  isURL (ToLower s) = isURL s /\ isURL (TrimSpace s) = isURL s.
Proof.
  split; [apply isURL_ToLower|]. unfold isURL. cbv zeta.
  now rewrite <- (TrimSpace_ToLower s), TrimSpace_idem.
Qed.

(** X23. An input without colon, slash, question mark and hash is never
    handed to [url.Parse]: it is normalized and matched as it stands,
    with or without the strict flag. *)
Theorem plain_input_is_its_domain (lib : GoLib) (config : Config) (input : string) :
  ContainsAny input ":/?#" = false ->
  isURL input = false /\
  extractDomain config input = Some input /\
  normalizedDomain config input = Some (normalizeDomain input).
Proof.
  intros A. assert (U := isURL_plain input A).
  unfold normalizedDomain, extractDomain. now rewrite U.
Qed.

Lemma plain_input_is_its_domain_witness :
  ContainsAny "Sub.Example.COM." ":/?#" = false /\
  isURL "Sub.Example.COM." = false /\
  @extractDomain model strictConfig "Sub.Example.COM." = Some "Sub.Example.COM." /\
  @normalizedDomain model strictConfig "Sub.Example.COM."
    = Some (normalizeDomain "Sub.Example.COM.").
Proof.
  split; [reflexivity|].
  apply (plain_input_is_its_domain model strictConfig). reflexivity.
Defined.

(** X24. For an input that is not URL-like the case of the letters does
    not matter: the input in lower case gets the same verdict and the
    same label, and the same patterns are tried. *)
Theorem inScope_ignores_case (lib : GoLib) (config : Config) (s : scopeChecker)
    (input : string) :
  isURL input = false ->
  verdict (inScope config s (ToLower input)) = verdict (inScope config s input) /\
  matchedPattern (inScope config s (ToLower input)) = matchedPattern (inScope config s input) /\
  includesCalled (inScope config s (ToLower input)) = includesCalled (inScope config s input) /\
  excludesCalled (inScope config s (ToLower input)) = excludesCalled (inScope config s input).
Proof.
  intros U.
  assert (UL : isURL (ToLower input) = false)
    by (now rewrite isURL_ToLower).
  unfold inScope, extractDomain. rewrite U, UL.
  replace (normalizeDomain (ToLower input)) with (normalizeDomain input)
    by (unfold normalizeDomain; now rewrite ToLower_idem).
  destruct (firstMatch (patterns s) _) as [[p|] ?];
  destruct (firstMatch (antipatterns s) _) as [[q|] ?]; now repeat split.
Qed.

Lemma inScope_ignores_case_witness :
  isURL "WWW.Example.Com" = false /\
  (let s := build ["*.example.com"] in
   verdict (inScope defaultConfig s (ToLower "WWW.Example.Com"))
     = verdict (inScope defaultConfig s "WWW.Example.Com") /\
   matchedPattern (inScope defaultConfig s (ToLower "WWW.Example.Com"))
     = matchedPattern (inScope defaultConfig s "WWW.Example.Com") /\
   includesCalled (inScope defaultConfig s (ToLower "WWW.Example.Com"))
     = includesCalled (inScope defaultConfig s "WWW.Example.Com") /\
   excludesCalled (inScope defaultConfig s (ToLower "WWW.Example.Com"))
     = excludesCalled (inScope defaultConfig s "WWW.Example.Com")).
Proof.
  split; [reflexivity|]. cbv zeta.
  apply (inScope_ignores_case model defaultConfig). reflexivity.
Defined.

(** ** Wildcard lines, continued *)

Module WildcardShapes.
Import GoRegexp.

(** A line without star stands for itself. *)
Lemma Glob_literal (line d : string) : mem "*" line = false -> Glob line d -> d = line.
Proof.
  intros M G. induction G as [ | c line d N _ IH | line d _ _ | c line d N _ _].
  - reflexivity.
  - cbn [mem] in M. apply orb_false_iff in M as [_ M]. now rewrite (IH M).
  - cbn [mem] in M. discriminate.
  - cbn [mem] in M. discriminate.
Qed.

Lemma Glob_self (line : string) : mem "*" line = false -> Glob line line.
Proof.
  induction line as [|c line IH]; intros M; [constructor|].
  cbn [mem] in M. apply orb_false_iff in M as [Mc M].
  apply glob_char; [|now apply IH].
  intros ->. discriminate.
Qed.

(** A line that begins with a star stands for what follows it, after
    any run of bytes without line feed. *)
Lemma Glob_leading_star (rest d : string) :
  mem "*" rest = false ->
  Glob (String "*" rest) d <-> exists p, d = p ++ rest /\ mem "010" p = false.
Proof.
  intros M. split.
  - intros G. remember (String "*" rest) as line eqn:E.
    induction G as [ | c line d N _ _ | line d G _ | c line d N G IH].
    + discriminate.
    + injection E as -> _. congruence.
    + injection E as ->. exists "". split; [|reflexivity].
      exact (Glob_literal _ _ M G).
    + injection E as ->. destruct (IH eq_refl) as (p & -> & Np).
      exists (String c p). split; [reflexivity|].
      cbn [mem]. rewrite Np, orb_false_r. apply Ascii.eqb_neq. congruence.
  - intros (p & -> & Np). induction p as [|c p IH].
    + apply glob_star_stop, Glob_self, M.
    + cbn [mem] in Np. apply orb_false_iff in Np as [Nc Np].
      cbn [append]. apply glob_star_step; [|now apply IH].
      intros ->. discriminate.
Qed.

End WildcardShapes.

(** X25. Translating twice is translating once: what
    [convertWildcardToRegex] returns, it returns unchanged. *)
Theorem convertWildcardToRegex_idempotent (line : string) :
  convertWildcardToRegex (convertWildcardToRegex line) = convertWildcardToRegex line.
Proof.
  destruct (ContainsAny line metacharacters) eqn:M.
  - now rewrite !(convert_passthrough line M).
  - rewrite (convert_wildcard line M). now apply convert_passthrough.
Qed.

(** X26. On the regexp model, a line without metacharacters and
    without star compiles, and accepts the domain that is equal to the
    line and no other: its dots are dots. *)
Theorem literal_line_matches_itself (line : string) :
  ContainsAny line "^$[]{}()+?|\" = false ->
  mem "*" line = false ->
  exists re, GoRegexp.Compile (convertWildcardToRegex line) = Ok re /\
    forall d, GoRegexp.MatchString re d = true <-> d = line.
Proof.
  intros M S. destruct (WildcardFacts.wildcard_matches_whole line M) as (re & C & W).
  exists re. split; [exact C|]. intros d. rewrite W. split.
  - now apply WildcardShapes.Glob_literal.
  - intros ->. now apply WildcardShapes.Glob_self.
Qed.

Lemma literal_line_matches_itself_witness :
  ContainsAny "example.com" "^$[]{}()+?|\" = false /\
  mem "*" "example.com" = false /\
  exists re, GoRegexp.Compile (convertWildcardToRegex "example.com") = Ok re /\
    forall d, GoRegexp.MatchString re d = true <-> d = "example.com".
Proof.
  split; [reflexivity|]. split; [reflexivity|].
  apply (literal_line_matches_itself "example.com"); reflexivity.
Defined.

(** X27. On the regexp model, a line made of a star and of a rest
    without metacharacters and stars accepts the domains that end with
    the rest, after any run of bytes without line feed, the empty run
    included, and no other: [*.example.com] accepts [a.b.example.com]
    and [.example.com], and does not accept [example.com]. *)
Theorem star_line_matches_suffix (rest : string) :
  ContainsAny rest "^$[]{}()+?|\" = false ->
  mem "*" rest = false ->
  exists re, GoRegexp.Compile (convertWildcardToRegex (String "*" rest)) = Ok re /\
    forall d, GoRegexp.MatchString re d = true <->
              exists p, d = p ++ rest /\ mem "010" p = false.
Proof.
  intros M S.
  destruct (WildcardFacts.wildcard_matches_whole (String "*" rest)) as (re & C & W).
  { unfold metacharacters. cbn [ContainsAny]. now rewrite M. }
  exists re. split; [exact C|]. intros d. rewrite W.
  now apply WildcardShapes.Glob_leading_star.
Qed.

Lemma star_line_matches_suffix_witness :
  ContainsAny ".example.com" "^$[]{}()+?|\" = false /\
  mem "*" ".example.com" = false /\
  exists re, GoRegexp.Compile (convertWildcardToRegex "*.example.com") = Ok re /\
    (forall d, GoRegexp.MatchString re d = true <->
               exists p, d = p ++ ".example.com" /\ mem "010" p = false) /\
    GoRegexp.MatchString re "a.b.example.com" = true /\
    GoRegexp.MatchString re ".example.com" = true /\
    GoRegexp.MatchString re "example.com" = false.
Proof.
  split; [reflexivity|]. split; [reflexivity|].
  destruct (star_line_matches_suffix ".example.com" eq_refl eq_refl) as (re & C & W).
  exists re. split; [exact C|]. split; [exact W|].
  vm_compute in C. injection C as <-. repeat split.
Defined.
